(** * NEXUS dashboard: state derivation, commands and preference store

    A shallow embedding of [src/js/App.js] (with the parts of [API.js] and
    [UI.js] it depends on) and the proofs of the properties stated for it.

    Conventions of the embedding.
    - JavaScript strings are [string]; numbers that come from the data
      source are finite and are compared exactly, so they are [Q].
    - A thrown exception is an explicit [Throw] completion; handlers run in
      a state-and-exception monad over the [World] (application state,
      localStorage, trace of calls to collaborators).
    - Built-ins whose result depends on Unicode tables, on the locale or on
      the JSON grammar ([toLowerCase], [trim], [localeCompare],
      [JSON.parse], [JSON.stringify]) are the operations of the class
      [Builtins]; every theorem holds for all of them, and [Sample] gives
      one instance on which the definitions can be run. *)

From Stdlib Require Import Ascii String QArith Lqa Sorted.
From stdpp Require Import base option list strings gmap pretty.

Set Default Proof Using "Type".
Set Warnings "-register-all,-clear-no-such-hyp".

(** ** JavaScript values, completions and built-ins *)

(** A value produced by [JSON.parse]. *)
Inductive JsValue :=
  | JNull
  | JBool (b : bool)
  | JNum (q : Q)
  | JStr (s : string)
  | JArr (l : list JsValue)
  | JObj (l : list (string * JsValue)).

(** What a [catch] clause receives. [Error m] is [new Error(m)] (or any
    thrown value whose [message] property is [m], [None] when it is absent
    or nullish); [Raised n] is an exception of class [n] raised by the
    runtime itself. *)
Inductive JsError :=
  | Error (message : option string)
  | Raised (name : string).

Inductive Completion (A : Type) :=
  | Normal (a : A)
  | Throw (e : JsError).
Arguments Normal {A} a.
Arguments Throw {A} e.

Class Builtins := {
  (** [String.prototype.toLowerCase] *)
  toLowerCase : string → string;
  (** [String.prototype.trim] *)
  trim : string → string;
  (** [String.prototype.localeCompare]: negative, zero or positive *)
  localeCompare : string → string → Z;
  (** [JSON.parse]: the value, or a thrown [SyntaxError] *)
  JSON_parse : string → Completion JsValue;
  (** [JSON.stringify] *)
  JSON_stringify : JsValue → string;
  (** the [message] of an exception raised by the runtime *)
  messageOf : string → string;
}.

(** [s.includes(q)]: [q] occurs in [s] as a contiguous substring. *)
Fixpoint includes (s q : string) : bool :=
  String.prefix q s ||
  match s with
  | EmptyString => false
  | String _ s' => includes s' q
  end.

(** [!s] for a string: only the empty string is falsy. *)
Definition falsy (s : string) : bool :=
  match s with EmptyString => true | _ => false end.

(** [arr.includes(x)] for an array of strings. *)
Definition arrayIncludes (arr : list string) (x : string) : bool :=
  existsb (String.eqb x) arr.

(** ** Coin records (the [CoinData] typedef of API.js) *)

Module Coin.
Record t := {
  id : string;
  symbol : string;
  name : string;
  image : string;
  current_price : Q;
  market_cap : Q;
  market_cap_rank : Q;
  total_volume : Q;
  high_24h : Q;
  low_24h : Q;
  price_change_percentage_24h : Q;
  circulating_supply : Q;
}.
End Coin.

Abbreviation CoinData := Coin.t.

(** ** [Array.prototype.sort]

    ECMAScript (2019 and later) requires the sort to be stable, and every
    stable sort returns the same array when the comparator is consistent.
    The model is the stable insertion sort: an element moves right past
    exactly those elements that the comparator puts before it (a positive
    result of [cmp x y] means [x] comes after [y]). *)

Section Sort.
Context {A : Type} (cmp : A → A → Q).

Fixpoint insertSorted (x : A) (l : list A) : list A :=
  match l with
  | [] => [x]
  | y :: l' =>
      if Qlt_le_dec 0 (cmp x y) then y :: insertSorted x l' else x :: y :: l'
  end.

Definition stableSort (l : list A) : list A := foldr insertSorted [] l.
End Sort.

(** What [getSorter] can return: one of the comparators it defines, or the
    value that the property lookup finds on [Object.prototype]. *)
Inductive Sorter :=
  | Comparator (cmp : CoinData → CoinData → Q)
  | Inherited (key : string).

(** The property names of [Object.prototype]; an object literal inherits
    all of them. *)
Definition objectPrototypeKeys : list string :=
  [ "constructor"; "hasOwnProperty"; "isPrototypeOf"; "propertyIsEnumerable";
    "toLocaleString"; "toString"; "valueOf"; "__proto__";
    "__defineGetter__"; "__defineSetter__"; "__lookupGetter__";
    "__lookupSetter__" ].

(** [arr.sort(sorter)] on an array of coin objects.
    - [__proto__] is the prototype object itself, which is not callable:
      [sort] throws a TypeError before looking at the array.
    - [constructor] ([Object]) and [toString] return a value that converts
      to NaN, which [sort] reads as 0: nothing moves.
    - the other inherited methods throw a TypeError when called with an
      undefined receiver, which happens at the first comparison, so as soon
      as there are two elements. *)
Definition arraySort (sorter : Sorter) (arr : list CoinData)
  : Completion (list CoinData) :=
  match sorter with
  | Comparator cmp => Normal (stableSort cmp arr)
  | Inherited key =>
      if String.eqb key "__proto__" then Throw (Raised "TypeError")
      else if String.eqb key "constructor" || String.eqb key "toString"
      then Normal arr
      else if Nat.leb (length arr) 1 then Normal arr
      else Throw (Raised "TypeError")
  end.

(** ** Application state (the [AppState] typedef) *)

Record AppState := {
  allCoins : list CoinData;
  favorites : list string;
  searchQuery : string;
  sortBy : string;
  sortOrder : string;
  theme : string;
  watchlistOnly : bool;
  isLoading : bool;
}.

(** ** The functional pipeline: filter, sort *)

Section Pipeline.
Context `{Builtins}.

(** [const direction = order === 'asc' ? 1 : -1] *)
Definition direction (order : string) : Q :=
  if String.eqb order "asc" then 1%Q else (-1)%Q.

(** The five own properties of the [comparators] object. *)
Definition cmp_market_cap (direction : Q) (a b : CoinData) : Q :=
  (direction * (Coin.market_cap a - Coin.market_cap b))%Q.
Definition cmp_price (direction : Q) (a b : CoinData) : Q :=
  (direction * (Coin.current_price a - Coin.current_price b))%Q.
Definition cmp_change (direction : Q) (a b : CoinData) : Q :=
  (direction * (Coin.price_change_percentage_24h a
                - Coin.price_change_percentage_24h b))%Q.
Definition cmp_name (direction : Q) (a b : CoinData) : Q :=
  (direction * inject_Z (localeCompare (Coin.name a) (Coin.name b)))%Q.
Definition cmp_volume (direction : Q) (a b : CoinData) : Q :=
  (direction * (Coin.total_volume a - Coin.total_volume b))%Q.

(** [comparators[field]] restricted to own properties. *)
Definition comparators (direction : Q) (field : string)
  : option (CoinData → CoinData → Q) :=
  if String.eqb field "market_cap" then Some (cmp_market_cap direction)
  else if String.eqb field "price" then Some (cmp_price direction)
  else if String.eqb field "change" then Some (cmp_change direction)
  else if String.eqb field "name" then Some (cmp_name direction)
  else if String.eqb field "volume" then Some (cmp_volume direction)
  else None.

(** [return comparators[field] ?? comparators.market_cap]: the lookup
    walks the prototype chain, and [??] replaces only null and
    undefined. *)
Definition getSorter (field order : string) : Sorter :=
  let direction := direction order in
  match comparators direction field with
  | Some cmp => Comparator cmp
  | None =>
      if arrayIncludes objectPrototypeKeys field then Inherited field
      else Comparator (cmp_market_cap direction)
  end.

(** The callback of the search filter. *)
Definition matchesQuery (query : string) (coin : CoinData) : bool :=
  if falsy query then true
  else includes (toLowerCase (Coin.name coin)) query
       || includes (toLowerCase (Coin.symbol coin)) query.

(** The array handed to [sort]: [watchlisted]. *)
Definition watchlisted (State : AppState) : list CoinData :=
  let query := trim (toLowerCase (searchQuery State)) in
  let searched := List.filter (matchesQuery query) (allCoins State) in
  if watchlistOnly State
  then List.filter (λ coin, arrayIncludes (favorites State) (Coin.id coin))
                   searched
  else searched.

Definition deriveVisibleCoins (State : AppState)
  : Completion (list CoinData) :=
  arraySort (getSorter (sortBy State) (sortOrder State)) (watchlisted State).
End Pipeline.

(** ** localStorage, the trace of calls and the world *)

(** [accessible = false]: storage is disabled and every access throws;
    [hasQuota = false]: writes are rejected. *)
Record Storage := {
  items : gmap string string;
  accessible : bool;
  hasQuota : bool;
}.

Definition getItem (ls : Storage) (key : string) : Completion (option string) :=
  if accessible ls then Normal (items ls !! key)
  else Throw (Raised "SecurityError").

Definition setItem (ls : Storage) (key value : string) : Completion Storage :=
  if negb (accessible ls) then Throw (Raised "SecurityError")
  else if hasQuota ls
  then Normal {| items := <[key := value]> (items ls);
                 accessible := accessible ls; hasQuota := hasQuota ls |}
  else Throw (Raised "QuotaExceededError").

(** Calls that leave App.js, in the order they are made. [derive] records
    an entry into [deriveVisibleCoins]; [dom e p v] is a write of [v] to
    property [p] of the element with id [e]. The collaborators are taken
    to return normally, and the elements to exist. *)
Inductive Call :=
  | fetchCoins
  | renderSkeletons (count : nat)
  | renderCoins (coins : list CoinData) (favoriteIds : list string)
  | showError (message : string)
  | hideError
  | showWatchlistEmpty
  | showToast (message kind : string)
  | updateStats (total showing favorites : nat)
  | applyTheme (theme : string)
  | derive
  | dom (element property value : string)
  | console (level : string).

Record World := {
  State : AppState;
  localStorage : Storage;
  trace : list Call;
}.

(** ** The monad of handlers: state and exceptions *)

Definition M (A : Type) : Type := World → Completion A * World.

#[global] Instance M_ret : MRet M := λ A a w, (Normal a, w).
#[global] Instance M_bind : MBind M := λ A B f m w,
  match m w with
  | (Normal a, w') => f a w'
  | (Throw e, w') => (Throw e, w')
  end.

Definition liftC {A} (c : Completion A) : M A := λ w, (c, w).

Definition tryCatch {A} (body : M A) (handler : JsError → M A) : M A := λ w,
  match body w with
  | (Normal a, w') => (Normal a, w')
  | (Throw e, w') => handler e w'
  end.

Definition tryFinally {A} (body : M A) (cleanup : M unit) : M A := λ w,
  match body w with
  | (r, w') =>
      match cleanup w' with
      | (Normal _, w'') => (r, w'')
      | (Throw e, w'') => (Throw e, w'')
      end
  end.

Definition getState : M AppState := λ w, (Normal (State w), w).
Definition getStorage : M Storage := λ w, (Normal (localStorage w), w).

Definition assign (f : AppState → AppState) : M unit := λ w,
  (Normal (), {| State := f (State w); localStorage := localStorage w;
                 trace := trace w |}).

Definition putStorage (ls : Storage) : M unit := λ w,
  (Normal (), {| State := State w; localStorage := ls; trace := trace w |}).

Definition call (c : Call) : M unit := λ w,
  (Normal (), {| State := State w; localStorage := localStorage w;
                 trace := trace w ++ [c] |}).

(** Field assignments [State.f = v]. *)
Definition set_allCoins (v : list CoinData) (s : AppState) : AppState :=
  {| allCoins := v; favorites := favorites s; searchQuery := searchQuery s;
     sortBy := sortBy s; sortOrder := sortOrder s; theme := theme s;
     watchlistOnly := watchlistOnly s; isLoading := isLoading s |}.
Definition set_favorites (v : list string) (s : AppState) : AppState :=
  {| allCoins := allCoins s; favorites := v; searchQuery := searchQuery s;
     sortBy := sortBy s; sortOrder := sortOrder s; theme := theme s;
     watchlistOnly := watchlistOnly s; isLoading := isLoading s |}.
Definition set_searchQuery (v : string) (s : AppState) : AppState :=
  {| allCoins := allCoins s; favorites := favorites s; searchQuery := v;
     sortBy := sortBy s; sortOrder := sortOrder s; theme := theme s;
     watchlistOnly := watchlistOnly s; isLoading := isLoading s |}.
Definition set_sortBy (v : string) (s : AppState) : AppState :=
  {| allCoins := allCoins s; favorites := favorites s;
     searchQuery := searchQuery s; sortBy := v; sortOrder := sortOrder s;
     theme := theme s; watchlistOnly := watchlistOnly s;
     isLoading := isLoading s |}.
Definition set_sortOrder (v : string) (s : AppState) : AppState :=
  {| allCoins := allCoins s; favorites := favorites s;
     searchQuery := searchQuery s; sortBy := sortBy s; sortOrder := v;
     theme := theme s; watchlistOnly := watchlistOnly s;
     isLoading := isLoading s |}.
Definition set_theme (v : string) (s : AppState) : AppState :=
  {| allCoins := allCoins s; favorites := favorites s;
     searchQuery := searchQuery s; sortBy := sortBy s;
     sortOrder := sortOrder s; theme := v; watchlistOnly := watchlistOnly s;
     isLoading := isLoading s |}.
Definition set_watchlistOnly (v : bool) (s : AppState) : AppState :=
  {| allCoins := allCoins s; favorites := favorites s;
     searchQuery := searchQuery s; sortBy := sortBy s;
     sortOrder := sortOrder s; theme := theme s; watchlistOnly := v;
     isLoading := isLoading s |}.
Definition set_isLoading (v : bool) (s : AppState) : AppState :=
  {| allCoins := allCoins s; favorites := favorites s;
     searchQuery := searchQuery s; sortBy := sortBy s;
     sortOrder := sortOrder s; theme := theme s;
     watchlistOnly := watchlistOnly s; isLoading := v |}.

(** [String(b)] *)
Definition boolString (b : bool) : string := if b then "true" else "false".

(** ** Storage keys and helpers *)

Module STORAGE_KEYS.
Definition FAVORITES : string := "nexus_favorites".
Definition THEME : string := "nexus_theme".
Definition SORT_BY : string := "nexus_sort_by".
Definition SORT_ORDER : string := "nexus_sort_order".
End STORAGE_KEYS.

(** The outcome of the promise returned by [fetchCoins()]. *)
Inductive FetchOutcome :=
  | Resolved (coins : list CoinData)
  | Rejected (err : JsError).

Section App.
Context `{Builtins}.

(** [try { raw = getItem(key); return raw !== null ? JSON.parse(raw)
    : defaultValue } catch { return defaultValue }]. It only reads the
    storage. *)
Definition loadFromStorage (ls : Storage) (key : string)
    (defaultValue : JsValue) : Completion JsValue :=
  let body :=
    match getItem ls key with
    | Normal (Some raw) => JSON_parse raw
    | Normal None => Normal defaultValue
    | Throw e => Throw e
    end in
  match body with
  | Normal v => Normal v
  | Throw _ => Normal defaultValue
  end.

Definition saveToStorage (key : string) (value : JsValue) : M unit :=
  tryCatch
    (ls ← getStorage;
     ls' ← liftC (setItem ls key (JSON_stringify value));
     putStorage ls')
    (λ err, call (console "warn")).

(** ** Rendering and data fetching *)

Definition renderView : M unit :=
  call derive;;
  State ← getState;
  visible ← liftC (deriveVisibleCoins State);
  call (renderCoins visible (favorites State));;
  call (updateStats (length (allCoins State)) (length visible)
                    (length (favorites State))).

Definition setRefreshSpinner (active : bool) : M unit :=
  call (dom "refreshBtn" "classList.spinning" (boolString active)).

(** [err.message] *)
Definition message (err : JsError) : option string :=
  match err with
  | Error m => m
  | Raised n => Some (messageOf n)
  end.

(** [loadData] up to the point where it is suspended at [await]. *)
Definition loadData : M unit :=
  State ← getState;
  if isLoading State then mret ()
  else
    assign (set_isLoading true);;
    setRefreshSpinner true;;
    call (renderSkeletons 20);;
    call fetchCoins.

(** [loadData] from the point where the awaited promise settles. *)
Definition loadData_resume (outcome : FetchOutcome) : M unit :=
  tryFinally
    (tryCatch
       (coins ← match outcome with
                | Resolved coins => mret coins
                | Rejected err => liftC (Throw err)
                end;
        assign (set_allCoins coins);;
        renderView;;
        call (showToast (pretty (length coins)
                         +:+ " coins loaded successfully") "success"))
       (λ err,
          call (showError (default "An unknown error occurred."
                                   (message err)));;
          call (showToast "Failed to load data" "danger");;
          call (console "error")))
    (assign (set_isLoading false);;
     setRefreshSpinner false).

(** ** Favorites and theme *)

Definition toggleFavorite (coinId : string) : M unit :=
  State ← getState;
  let coin := List.find (λ c, String.eqb (Coin.id c) coinId)
                        (allCoins State) in
  let coinName := match coin with
                  | Some c => Coin.name c
                  | None => coinId
                  end in
  let isNowFav := arrayIncludes (favorites State) coinId in
  (if isNowFav then
     assign (set_favorites
               (List.filter (λ id, negb (String.eqb id coinId))
                            (favorites State)));;
     call (showToast (coinName +:+ " removed from Watchlist") "info")
   else
     assign (set_favorites (favorites State ++ [coinId]));;
     call (showToast (coinName +:+ " added to Watchlist ★") "success"));;
  State ← getState;
  saveToStorage STORAGE_KEYS.FAVORITES (JArr (JStr <$> favorites State));;
  renderView;;
  State ← getState;
  if watchlistOnly State && Nat.eqb (length (favorites State)) 0
  then call showWatchlistEmpty
  else mret ().

Definition toggleTheme : M unit :=
  State ← getState;
  assign (set_theme (if String.eqb (theme State) "dark"
                     then "light" else "dark"));;
  State ← getState;
  call (applyTheme (theme State));;
  saveToStorage STORAGE_KEYS.THEME (JStr (theme State));;
  call (showToast ((if String.eqb (theme State) "dark"
                    then "Dark" else "Light") +:+ " mode enabled") "info").
End App.

(** ** Event handlers and the event loop *)

(** What the event loop can deliver: the DOM events bound by [bindEvents],
    a tick of the 90 second timer, and the settlement of the promise a
    suspended [loadData] is awaiting. [SlashKey searchFocused] is a press
    of the key ['/'], [searchFocused] telling whether the search input is
    the active element. *)
Inductive Event :=
  | SearchInput (value : string)
  | ClearSearchClick
  | SortChange (value : string)
  | SortOrderClick
  | WatchlistToggleClick
  | RefreshClick
  | RetryClick
  | ThemeToggleClick
  | FavoriteClick (coinId : string)
  | SlashKey (searchFocused : bool)
  | RefreshTimer
  | FetchSettled (outcome : FetchOutcome).

Section Events.
Context `{Builtins}.

Definition onSearchInput (value : string) : M unit :=
  assign (set_searchQuery value);;
  call (dom "clearSearch" "hidden"
            (boolString (Nat.eqb (String.length value) 0)));;
  renderView.

Definition onClearSearchClick : M unit :=
  call (dom "searchInput" "value" EmptyString);;
  assign (set_searchQuery EmptyString);;
  call (dom "clearSearch" "hidden" "true");;
  call (dom "searchInput" "focus" EmptyString);;
  renderView.

Definition onSortChange (value : string) : M unit :=
  assign (set_sortBy value);;
  State ← getState;
  saveToStorage STORAGE_KEYS.SORT_BY (JStr (sortBy State));;
  renderView.

Definition sortOrderIconClass (order : string) : string :=
  if String.eqb order "asc" then "fa-solid fa-arrow-up-wide-short"
  else "fa-solid fa-arrow-down-wide-short".

Definition onSortOrderClick : M unit :=
  State ← getState;
  assign (set_sortOrder (if String.eqb (sortOrder State) "desc"
                         then "asc" else "desc"));;
  State ← getState;
  saveToStorage STORAGE_KEYS.SORT_ORDER (JStr (sortOrder State));;
  call (dom "sortOrderBtn" "classList.asc"
            (boolString (String.eqb (sortOrder State) "asc")));;
  call (dom "sortOrderIcon" "className"
            (sortOrderIconClass (sortOrder State)));;
  call (dom "sortOrderBtn" "title"
            (if String.eqb (sortOrder State) "asc"
             then "Ascending" else "Descending"));;
  renderView.

Definition onWatchlistToggleClick : M unit :=
  State ← getState;
  assign (set_watchlistOnly (negb (watchlistOnly State)));;
  State ← getState;
  call (dom "watchlistToggle" "aria-pressed"
            (boolString (watchlistOnly State)));;
  call (dom "watchlistToggle" "classList.active-watchlist"
            (boolString (watchlistOnly State)));;
  if watchlistOnly State && Nat.eqb (length (favorites State)) 0
  then
    call showWatchlistEmpty;;
    call (updateStats (length (allCoins State)) 0 0)
  else renderView.

Definition onRetryClick : M unit :=
  call hideError;;
  loadData.

(** The delegated click on the grid, on a button whose [data-id] is
    [coinId]. *)
Definition onFavoriteClick (coinId : string) : M unit :=
  if falsy coinId then mret () else toggleFavorite coinId.

Definition dispatch (e : Event) : M unit :=
  match e with
  | SearchInput value => onSearchInput value
  | ClearSearchClick => onClearSearchClick
  | SortChange value => onSortChange value
  | SortOrderClick => onSortOrderClick
  | WatchlistToggleClick => onWatchlistToggleClick
  | RefreshClick => loadData
  | RetryClick => onRetryClick
  | ThemeToggleClick => toggleTheme
  | FavoriteClick coinId => onFavoriteClick coinId
  | SlashKey searchFocused =>
      if searchFocused then mret ()
      else call (dom "searchInput" "focus" EmptyString)
  | RefreshTimer => loadData
  | FetchSettled outcome =>
      State ← getState;
      if isLoading State then loadData_resume outcome else mret ()
  end.

(** One turn of the event loop. An exception that escapes a handler is
    reported by the browser and goes no further; what the handler did
    before it stays done. *)
Definition fire (w : World) (e : Event) : World := (dispatch e w).2.

Definition run (events : list Event) (w : World) : World :=
  foldl fire w events.

(** ** Start-up *)

(** The part of the [State] initialiser read from the preference store,
    as the values [loadFromStorage] returns. *)
Record Hydrated := {
  h_favorites : Completion JsValue;
  h_sortBy : Completion JsValue;
  h_sortOrder : Completion JsValue;
  h_theme : Completion JsValue;
}.

Definition hydrate (ls : Storage) : Hydrated :=
  {| h_favorites := loadFromStorage ls STORAGE_KEYS.FAVORITES (JArr []);
     h_sortBy := loadFromStorage ls STORAGE_KEYS.SORT_BY (JStr "market_cap");
     h_sortOrder := loadFromStorage ls STORAGE_KEYS.SORT_ORDER (JStr "desc");
     h_theme := loadFromStorage ls STORAGE_KEYS.THEME (JStr "dark") |}.

Definition asString (c : Completion JsValue) : option string :=
  match c with
  | Normal (JStr s) => Some s
  | _ => None
  end.

Definition asStrings (c : Completion JsValue) : option (list string) :=
  match c with
  | Normal (JArr l) => mapM (λ v, asString (Normal v)) l
  | _ => None
  end.

(** The initial [State]. The initialiser stores the loaded values without
    inspecting them; [AppState] holds them at the types its typedef
    declares (strings, and an array of strings), so the result is [None]
    when a stored text parses to a value of another shape. *)
Definition initialState (ls : Storage) : option AppState :=
  let h := hydrate ls in
  favorites ← asStrings (h_favorites h);
  sortBy ← asString (h_sortBy h);
  sortOrder ← asString (h_sortOrder h);
  theme ← asString (h_theme h);
  Some {| allCoins := []; favorites := favorites;
          searchQuery := EmptyString; sortBy := sortBy;
          sortOrder := sortOrder; theme := theme;
          watchlistOnly := false; isLoading := false |}.

Definition restoreUIState : M unit :=
  State ← getState;
  call (applyTheme (theme State));;
  call (dom "sortSelect" "value" (sortBy State));;
  call (dom "sortOrderBtn" "classList.asc"
            (boolString (String.eqb (sortOrder State) "asc")));;
  call (dom "sortOrderIcon" "className"
            (sortOrderIconClass (sortOrder State))).

(** The entry point: [restoreUIState(); bindEvents(); loadData();], after
    which the event loop takes over. *)
Definition start (ls : Storage) : option World :=
  State ← initialState ls;
  Some ((restoreUIState;; loadData)
          {| State := State; localStorage := ls; trace := [] |}).2.
End Events.

(** ** A runnable instance of the built-ins

    [Sample] interprets ASCII text: case mapping and white space are those
    of ASCII, the collation is the order of the character codes, and the
    JSON reader knows [null], [true], [false], string literals without
    escapes and arrays of such literals, written without white space; it
    rejects every other text. It serves to run the handlers on concrete
    worlds. *)

Module Sample.
Definition quote : ascii := ascii_of_nat 34.
Definition backslash : ascii := ascii_of_nat 92.

Definition lower (c : ascii) : ascii :=
  let n := nat_of_ascii c in
  if Nat.leb 65 n && Nat.leb n 90 then ascii_of_nat (n + 32) else c.

Fixpoint lowerCase (s : string) : string :=
  match s with
  | EmptyString => EmptyString
  | String c s' => String (lower c) (lowerCase s')
  end.

Definition isSpace (c : ascii) : bool :=
  let n := nat_of_ascii c in
  Nat.eqb n 32 || (Nat.leb 9 n && Nat.leb n 13).

Fixpoint trimStart (l : list ascii) : list ascii :=
  match l with
  | c :: l' => if isSpace c then trimStart l' else l
  | [] => []
  end.

Definition trimSpaces (s : string) : string :=
  string_of_list_ascii
    (rev (trimStart (rev (trimStart (list_ascii_of_string s))))).

Definition codeCompare (s t : string) : Z :=
  match String.compare s t with
  | Lt => (-1)%Z
  | Eq => 0%Z
  | Gt => 1%Z
  end.

(** The text after an opening quote: the literal's content and what
    follows the closing quote. *)
Fixpoint stringBody (s : string) : option (string * string) :=
  match s with
  | EmptyString => None
  | String c s' =>
      if Ascii.eqb c quote then Some (EmptyString, s')
      else if Ascii.eqb c backslash || Nat.ltb (nat_of_ascii c) 32 then None
      else match stringBody s' with
           | Some (body, rest) => Some (String c body, rest)
           | None => None
           end
  end.

Definition stringLiteral (s : string) : option (string * string) :=
  match s with
  | String c s' => if Ascii.eqb c quote then stringBody s' else None
  | EmptyString => None
  end.

(** The elements of an array after the first, up to the closing bracket. *)
Fixpoint arrayRest (fuel : nat) (s : string) : option (list JsValue) :=
  match fuel, s with
  | S fuel', String c s' =>
      if Ascii.eqb c "]" then
        match s' with EmptyString => Some [] | _ => None end
      else if Ascii.eqb c "," then
        match stringLiteral s' with
        | Some (elt, rest) =>
            match arrayRest fuel' rest with
            | Some l => Some (JStr elt :: l)
            | None => None
            end
        | None => None
        end
      else None
  | _, _ => None
  end.

Definition parseValue (s : string) : option JsValue :=
  if String.eqb s "null" then Some JNull
  else if String.eqb s "true" then Some (JBool true)
  else if String.eqb s "false" then Some (JBool false)
  else if String.eqb s "[]" then Some (JArr [])
  else match s with
       | String "[" s' =>
           match stringLiteral s' with
           | Some (elt, rest) =>
               match arrayRest (String.length rest) rest with
               | Some l => Some (JArr (JStr elt :: l))
               | None => None
               end
           | None => None
           end
       | _ =>
           match stringLiteral s with
           | Some (body, EmptyString) => Some (JStr body)
           | _ => None
           end
       end.

Definition parse (s : string) : Completion JsValue :=
  match parseValue s with
  | Some v => Normal v
  | None => Throw (Raised "SyntaxError")
  end.

Definition quoted (s : string) : string :=
  String quote (s +:+ String quote EmptyString).

Definition stringifyElement (v : JsValue) : string :=
  match v with
  | JStr s => quoted s
  | JBool b => boolString b
  | _ => "null"
  end.

Fixpoint joinComma (l : list string) : string :=
  match l with
  | [] => EmptyString
  | [s] => s
  | s :: l' => s +:+ "," +:+ joinComma l'
  end.

Definition stringify (v : JsValue) : string :=
  match v with
  | JArr l => "[" +:+ joinComma (stringifyElement <$> l) +:+ "]"
  | _ => stringifyElement v
  end.

#[export] Instance builtins : Builtins := {|
  toLowerCase := lowerCase;
  trim := trimSpaces;
  localeCompare := codeCompare;
  JSON_parse := parse;
  JSON_stringify := stringify;
  messageOf := λ name, name;
|}.

(** Concrete coins and worlds for the examples. *)
Definition coin (id name : string) (cap : Q) : CoinData :=
  {| Coin.id := id; Coin.symbol := EmptyString; Coin.name := name;
     Coin.image := EmptyString; Coin.current_price := 0;
     Coin.market_cap := cap; Coin.market_cap_rank := 0;
     Coin.total_volume := 0; Coin.high_24h := 0; Coin.low_24h := 0;
     Coin.price_change_percentage_24h := 0;
     Coin.circulating_supply := 0 |}.

Definition alpha : CoinData := coin "a" "Alpha" 100.
Definition beta : CoinData := coin "b" "Beta" 50.
Definition gamma : CoinData := coin "c" "Gamma" 100.

Definition state0 : AppState :=
  {| allCoins := [alpha; beta; gamma]; favorites := [];
     searchQuery := EmptyString; sortBy := "market_cap";
     sortOrder := "desc"; theme := "dark"; watchlistOnly := false;
     isLoading := false |}.

Definition store (items : list (string * string)) : Storage :=
  {| items := list_to_map items; accessible := true; hasQuota := true |}.

Definition world (s : AppState) : World :=
  {| State := s; localStorage := store []; trace := [] |}.

(** The state at start-up when the store holds nothing usable. *)
Definition defaults : AppState :=
  {| allCoins := []; favorites := []; searchQuery := EmptyString;
     sortBy := "market_cap"; sortOrder := "desc"; theme := "dark";
     watchlistOnly := false; isLoading := false |}.

(** A store whose sort field parses, to a string that is no sort field. *)
Definition strayStore : Storage :=
  store [(STORAGE_KEYS.SORT_BY, quoted "banana")].

(** A store whose theme is not JSON text (the quotes are missing). *)
Definition garbledStore : Storage :=
  store [(STORAGE_KEYS.THEME, "light")].

(** The watchlist filter is on and ["a"] is the only favorite. *)
Definition lastFavorite : World :=
  world (set_watchlistOnly true (set_favorites ["a"] state0)).

(** A fetch is in flight. *)
Definition loading : World := world (set_isLoading true state0).
End Sample.

(** ** The vocabulary of the stated properties *)

Section Vocabulary.
Context `{Builtins}.

(** A record passes the filters: the trimmed, case-folded query is empty
    or occurs in the case-folded name or symbol, and, when the watchlist
    filter is on, the identifier is a favorite. *)
Definition keeps (S : AppState) (coin : CoinData) : bool :=
  let query := trim (toLowerCase (searchQuery S)) in
  (falsy query
   || includes (toLowerCase (Coin.name coin)) query
   || includes (toLowerCase (Coin.symbol coin)) query)
  && (if watchlistOnly S
      then arrayIncludes (favorites S) (Coin.id coin) else true).

(** The three enumerations of the typedefs. *)
Definition SortField : list string :=
  ["market_cap"; "price"; "change"; "name"; "volume"].
Definition SortOrder : list string := ["asc"; "desc"].
Definition Theme : list string := ["dark"; "light"].

Definition validPrefs (S : AppState) : Prop :=
  sortBy S ∈ SortField ∧ sortOrder S ∈ SortOrder ∧ theme S ∈ Theme.

(** The numeric sort key a field name selects, if any: the four numeric
    fields, and [market_cap] for a name that is neither a sort field nor
    found on [Object.prototype]. *)
Definition numericKey (field : string) : option (CoinData → Q) :=
  if String.eqb field "market_cap" then Some Coin.market_cap
  else if String.eqb field "price" then Some Coin.current_price
  else if String.eqb field "change"
  then Some Coin.price_change_percentage_24h
  else if String.eqb field "volume" then Some Coin.total_volume
  else if String.eqb field "name" then None
  else if arrayIncludes objectPrototypeKeys field then None
  else Some Coin.market_cap.

(** Two records have equal sort keys under the selected field. A field
    name found on [Object.prototype] selects no key: all records tie. *)
Definition sameSortKey (field : string) (a b : CoinData) : Prop :=
  match numericKey field with
  | Some key => (key a == key b)%Q
  | None =>
      if String.eqb field "name" then Coin.name a = Coin.name b else True
  end.

(** [a] occurs somewhere before [b] in [l]. *)
Definition before (a b : CoinData) (l : list CoinData) : Prop :=
  [a; b] `sublist_of` l.

(** The key never increases, resp. never decreases, along the list. *)
Definition descendingBy (key : CoinData → Q) (l : list CoinData) : Prop :=
  StronglySorted (λ a b, (key b <= key a)%Q) l.
Definition ascendingBy (key : CoinData → Q) (l : list CoinData) : Prop :=
  StronglySorted (λ a b, (key a <= key b)%Q) l.

(** The preference store has nothing usable under [key]: it cannot be
    read, the key is absent, or the stored text does not parse. *)
Definition unusable (ls : Storage) (key : string) : Prop :=
  accessible ls = false
  ∨ items ls !! key = None
  ∨ ∃ raw e, items ls !! key = Some raw ∧ JSON_parse raw = Throw e.

(** No event of the list settles a fetch. *)
Definition noSettle (events : list Event) : Prop :=
  Forall (λ e, match e with FetchSettled _ => False | _ => True end) events.
End Vocabulary.

(** ** API.js: the data source

    [fetchCoins] is a function of what the network delivers; values are
    the parsed JSON values, since [normalizeCoin] keeps whatever it finds
    under a key that is not null. *)

#[global] Instance Completion_ret : MRet Completion := λ A a, Normal a.
#[global] Instance Completion_bind : MBind Completion := λ A B f c,
  match c with
  | Normal a => f a
  | Throw e => Throw e
  end.

Class ApiBuiltins := {
  (** [String.prototype.toUpperCase] *)
  toUpperCase : string → string;
}.

Module API.
(** What [await fetch(url, ...)] delivers: a rejection, or a response with
    its status and the outcome of [response.json()]. *)
Inductive FetchResult :=
  | NetworkError
  | Response (status : nat) (json : Completion JsValue).

(** [response.ok] *)
Definition ok (status : nat) : bool :=
  Nat.leb 200 status && Nat.leb status 299.

(** The own properties of [statusMessages]; its keys are numerals, which
    no prototype defines. *)
Definition statusMessages (status : nat) : option string :=
  if Nat.eqb status 429
  then Some "Rate limit reached. Please wait a moment before refreshing."
  else if Nat.eqb status 403
  then Some "Access forbidden. The API may require authentication."
  else if Nat.eqb status 404
  then Some "API endpoint not found. Please report this issue."
  else if Nat.eqb status 500
  then Some "CoinGecko server error. Please try again later."
  else None.

(** [raw.key] for one of the twelve field names, none of which a prototype
    defines: reading a property of [null] throws, an object yields the
    value stored under the key, any other value yields [undefined]
    ([None]). The keys of a parsed object are distinct. *)
Definition prop (raw : JsValue) (key : string) : Completion (option JsValue) :=
  match raw with
  | JNull => Throw (Raised "TypeError")
  | JObj fields =>
      Normal (snd <$> List.find (λ kv, String.eqb (fst kv) key) fields)
  | _ => Normal None
  end.

(** [v ?? d] *)
Definition orElse (v : option JsValue) (d : JsValue) : JsValue :=
  match v with
  | None | Some JNull => d
  | Some v => v
  end.

(** The object [normalizeCoin] returns. *)
Record Normalized := {
  id : JsValue;
  symbol : JsValue;
  name : JsValue;
  image : JsValue;
  current_price : JsValue;
  market_cap : JsValue;
  market_cap_rank : JsValue;
  total_volume : JsValue;
  high_24h : JsValue;
  low_24h : JsValue;
  price_change_percentage_24h : JsValue;
  circulating_supply : JsValue;
}.

Definition fields (c : Normalized) : list JsValue :=
  [ id c; symbol c; name c; image c; current_price c; market_cap c;
    market_cap_rank c; total_volume c; high_24h c; low_24h c;
    price_change_percentage_24h c; circulating_supply c ].

Section Api.
Context `{ApiBuiltins}.

(** [(v).toUpperCase()]: only a string has the method. *)
Definition callToUpperCase (v : JsValue) : Completion JsValue :=
  match v with
  | JStr s => Normal (JStr (toUpperCase s))
  | _ => Throw (Raised "TypeError")
  end.

Definition normalizeCoin (raw : JsValue) : Completion Normalized :=
  id ← prop raw "id";
  symbol ← prop raw "symbol";
  symbol ← callToUpperCase (orElse symbol (JStr EmptyString));
  name ← prop raw "name";
  image ← prop raw "image";
  current_price ← prop raw "current_price";
  market_cap ← prop raw "market_cap";
  market_cap_rank ← prop raw "market_cap_rank";
  total_volume ← prop raw "total_volume";
  high_24h ← prop raw "high_24h";
  low_24h ← prop raw "low_24h";
  price_change_percentage_24h ← prop raw "price_change_percentage_24h";
  circulating_supply ← prop raw "circulating_supply";
  Normal {|
    id := orElse id (JStr "unknown");
    symbol := symbol;
    name := orElse name (JStr "Unknown");
    image := orElse image (JStr EmptyString);
    current_price := orElse current_price (JNum 0);
    market_cap := orElse market_cap (JNum 0);
    market_cap_rank := orElse market_cap_rank (JNum 0);
    total_volume := orElse total_volume (JNum 0);
    high_24h := orElse high_24h (JNum 0);
    low_24h := orElse low_24h (JNum 0);
    price_change_percentage_24h := orElse price_change_percentage_24h (JNum 0);
    circulating_supply := orElse circulating_supply (JNum 0);
  |}.

(** [fetchCoins], given what the request delivers. *)
Definition fetchCoins (result : FetchResult) : Completion (list Normalized) :=
  match result with
  | NetworkError =>
      Throw (Error (Some
        "Network request failed. Check your internet connection and try again."))
  | Response status json =>
      if negb (ok status) then
        Throw (Error (Some
          (default ("Unexpected server response (HTTP " +:+ pretty status
                    +:+ ").")
                   (statusMessages status))))
      else
        match json with
        | Throw _ =>
            Throw (Error (Some
              "Could not parse the server response. Try again later."))
        | Normal (JArr (raw :: data)) => mapM normalizeCoin (raw :: data)
        | Normal _ => Throw (Error (Some "No coin data returned by the API."))
        end
  end.
End Api.
End API.

(** The record made of the fallback values alone. *)
Definition fallbackCoin `{ApiBuiltins} : API.Normalized :=
  {| API.id := JStr "unknown";
     API.symbol := JStr (toUpperCase EmptyString);
     API.name := JStr "Unknown";
     API.image := JStr EmptyString;
     API.current_price := JNum 0; API.market_cap := JNum 0;
     API.market_cap_rank := JNum 0; API.total_volume := JNum 0;
     API.high_24h := JNum 0; API.low_24h := JNum 0;
     API.price_change_percentage_24h := JNum 0;
     API.circulating_supply := JNum 0 |}.

(** The coin at the types of the [CoinData] typedef, when the normalized
    values have them. *)
Definition asCoin (c : API.Normalized) : option CoinData :=
  match API.fields c with
  | [ JStr id; JStr symbol; JStr name; JStr image; JNum current_price;
      JNum market_cap; JNum market_cap_rank; JNum total_volume;
      JNum high_24h; JNum low_24h; JNum price_change_percentage_24h;
      JNum circulating_supply ] =>
      Some {| Coin.id := id; Coin.symbol := symbol; Coin.name := name;
              Coin.image := image; Coin.current_price := current_price;
              Coin.market_cap := market_cap;
              Coin.market_cap_rank := market_cap_rank;
              Coin.total_volume := total_volume; Coin.high_24h := high_24h;
              Coin.low_24h := low_24h;
              Coin.price_change_percentage_24h := price_change_percentage_24h;
              Coin.circulating_supply := circulating_supply |}
  | _ => None
  end.

(** How the promise awaited by [loadData] settles for a given delivery;
    [None] when a normalized value is not of its declared type. *)
Definition settlement `{ApiBuiltins} (result : API.FetchResult)
  : option FetchOutcome :=
  match API.fetchCoins result with
  | Normal coins => Resolved <$> mapM asCoin coins
  | Throw err => Some (Rejected err)
  end.

(** ** UI.js: rendering

    The grid, the error banner and the empty-state panel are the elements
    [Panels] records; each function below is its effect on them. The text
    of a card comes from formatters of the platform, so the two card
    builders are operations of [Markup]. *)

Class Markup := {
  buildSkeletonCard : string;
  buildCoinCard : CoinData → list string → string;
}.

Module UI.
Definition doubleQuote : ascii := ascii_of_nat 34.
Definition newline : ascii := ascii_of_nat 10.

(** [s.replace(/c/g, by)] for a pattern that is one literal character and
    a replacement without [$]. *)
Fixpoint replaceAll (c : ascii) (by_ : string) (s : string) : string :=
  match s with
  | EmptyString => EmptyString
  | String x s' =>
      if Ascii.eqb x c then by_ +:+ replaceAll c by_ s'
      else String x (replaceAll c by_ s')
  end.

Definition escapeHtml (str : string) : string :=
  replaceAll "'" "&#39;"
    (replaceAll doubleQuote "&quot;"
       (replaceAll ">" "&gt;"
          (replaceAll "<" "&lt;"
             (replaceAll "&" "&amp;" str)))).

Record Panels := {
  coinGrid_innerHTML : string;
  errorBanner_hidden : bool;
  errorMsg_textContent : string;
  emptyState_hidden : bool;
  emptyMsg_textContent : string;
}.

Definition hideEmpty (p : Panels) : Panels :=
  {| coinGrid_innerHTML := coinGrid_innerHTML p;
     errorBanner_hidden := errorBanner_hidden p;
     errorMsg_textContent := errorMsg_textContent p;
     emptyState_hidden := true;
     emptyMsg_textContent := emptyMsg_textContent p |}.

Definition hideError (p : Panels) : Panels :=
  {| coinGrid_innerHTML := coinGrid_innerHTML p;
     errorBanner_hidden := true;
     errorMsg_textContent := errorMsg_textContent p;
     emptyState_hidden := emptyState_hidden p;
     emptyMsg_textContent := emptyMsg_textContent p |}.

Definition showEmpty (message : string) (p : Panels) : Panels :=
  {| coinGrid_innerHTML := coinGrid_innerHTML p;
     errorBanner_hidden := errorBanner_hidden p;
     errorMsg_textContent := errorMsg_textContent p;
     emptyState_hidden := false;
     emptyMsg_textContent := message |}.

Definition setGrid (html : string) (p : Panels) : Panels :=
  {| coinGrid_innerHTML := html;
     errorBanner_hidden := errorBanner_hidden p;
     errorMsg_textContent := errorMsg_textContent p;
     emptyState_hidden := emptyState_hidden p;
     emptyMsg_textContent := emptyMsg_textContent p |}.

Definition showError (message : string) (p : Panels) : Panels :=
  let p := hideEmpty (setGrid EmptyString p) in
  {| coinGrid_innerHTML := coinGrid_innerHTML p;
     errorBanner_hidden := false;
     errorMsg_textContent := message;
     emptyState_hidden := emptyState_hidden p;
     emptyMsg_textContent := emptyMsg_textContent p |}.

Definition watchlistEmptyMessage : string :=
  "You haven't added any coins to your Watchlist yet."
  +:+ String newline "Click the ★ on any card to save it here.".

Definition showWatchlistEmpty (p : Panels) : Panels :=
  showEmpty watchlistEmptyMessage (setGrid EmptyString p).

Section Ui.
Context `{Markup}.

Definition renderSkeletons (count : nat) (p : Panels) : Panels :=
  setGrid (String.concat EmptyString (replicate count buildSkeletonCard))
          (hideError (hideEmpty p)).

Definition renderCoins (coins : list CoinData) (favoriteIds : list string)
    (p : Panels) : Panels :=
  let p := hideError p in
  if Nat.eqb (length coins) 0 then
    showEmpty "No coins match your search. Try a different term."
              (setGrid EmptyString p)
  else
    setGrid (String.concat EmptyString
               (map (λ coin, buildCoinCard coin favoriteIds) coins))
            (hideEmpty p).
End Ui.
End UI.

(** The effect on the panels of one call made by App.js. The elements
    App.js writes itself have other ids, and toasts, counters and theme
    are other elements. *)
Definition paint `{Markup} (p : UI.Panels) (c : Call) : UI.Panels :=
  match c with
  | renderSkeletons count => UI.renderSkeletons count p
  | renderCoins coins favoriteIds => UI.renderCoins coins favoriteIds p
  | showError message => UI.showError message p
  | hideError => UI.hideError p
  | showWatchlistEmpty => UI.showWatchlistEmpty p
  | _ => p
  end.

(** The panels after the calls of a trace, oldest first. *)
Definition replay `{Markup} (calls : list Call) (p : UI.Panels) : UI.Panels :=
  foldl paint p calls.

(** ** Further vocabulary *)

(** The number of requests to the data source in a trace, and the number
    of settlements in a list of events. *)
Definition fetches (calls : list Call) : nat :=
  length (List.filter (λ c, match c with fetchCoins => true | _ => false end)
                      calls).

Definition settles (events : list Event) : nat :=
  length (List.filter (λ e, match e with FetchSettled _ => true | _ => false end)
                      events).

(** One slot for a request: taken while a fetch is in flight. *)
Definition freeSlot (S : AppState) : nat := if isLoading S then 0 else 1.

(** [JSON.parse] gives back what [JSON.stringify] wrote. *)
Definition roundTrips `{Builtins} (v : JsValue) : Prop :=
  JSON_parse (JSON_stringify v) = Normal v.

(** Writes to the store succeed. *)
Definition writable (ls : Storage) : Prop :=
  accessible ls = true ∧ hasQuota ls = true.

(** The character-by-character reading of [escapeHtml]. *)
Definition escapeChar (c : ascii) : string :=
  if Ascii.eqb c "&" then "&amp;"
  else if Ascii.eqb c "<" then "&lt;"
  else if Ascii.eqb c ">" then "&gt;"
  else if Ascii.eqb c UI.doubleQuote then "&quot;"
  else if Ascii.eqb c "'" then "&#39;"
  else String c EmptyString.

Fixpoint escapeEach (s : string) : string :=
  match s with
  | EmptyString => EmptyString
  | String c s' => escapeChar c +:+ escapeEach s'
  end.

(** The characters that open or close a tag or an attribute value. *)
Definition markupChar (c : ascii) : Prop :=
  c = "<"%char ∨ c = ">"%char ∨ c = UI.doubleQuote ∨ c = "'"%char.

(** The characters of a string. *)
Fixpoint chars (s : string) : list ascii :=
  match s with
  | EmptyString => []
  | String c s' => c :: chars s'
  end.

(** A runnable instance of the remaining operations. *)
Module SampleUi.
Definition upper (c : ascii) : ascii :=
  let n := nat_of_ascii c in
  if Nat.leb 97 n && Nat.leb n 122 then ascii_of_nat (n - 32) else c.

Fixpoint upperCase (s : string) : string :=
  match s with
  | EmptyString => EmptyString
  | String c s' => String (upper c) (upperCase s')
  end.

#[export] Instance api : ApiBuiltins := {| toUpperCase := upperCase |}.

#[export] Instance markup : Markup := {|
  buildSkeletonCard := "<div class=skeleton-card></div>";
  buildCoinCard := λ coin favoriteIds,
    "<article data-id=" +:+ Coin.id coin +:+ ">"
    +:+ UI.escapeHtml (Coin.name coin) +:+ "</article>";
|}.

(** A raw record as the endpoint sends it, and one with gaps. *)
Definition rawBitcoin : JsValue :=
  JObj [ ("id", JStr "bitcoin"); ("symbol", JStr "btc");
         ("name", JStr "Bitcoin"); ("image", JStr "btc.png");
         ("current_price", JNum 50000); ("market_cap", JNum 1000000);
         ("market_cap_rank", JNum 1); ("total_volume", JNum 2000);
         ("high_24h", JNum 51000); ("low_24h", JNum 49000);
         ("price_change_percentage_24h", JNum 2);
         ("circulating_supply", JNum 19) ].

Definition rawSparse : JsValue :=
  JObj [ ("id", JStr "x"); ("name", JNull) ].

Definition blank : UI.Panels :=
  {| UI.coinGrid_innerHTML := EmptyString; UI.errorBanner_hidden := true;
     UI.errorMsg_textContent := EmptyString; UI.emptyState_hidden := true;
     UI.emptyMsg_textContent := EmptyString |}.
End SampleUi.

(** ** Proof automation *)

(** Symbolic execution of a handler: unfold the monad, then split on every
    test and on every completion the handler inspects. *)
Ltac unfold_monad :=
  unfold mbind, mret, M_bind, M_ret, tryCatch, tryFinally, liftC, getState,
    getStorage, assign, putStorage, call in *.

Ltac unfold_handlers :=
  unfold fire, dispatch, onSearchInput, onClearSearchClick, onSortChange,
    onSortOrderClick, onWatchlistToggleClick, onRetryClick, onFavoriteClick,
    toggleFavorite, toggleTheme, loadData, loadData_resume, saveToStorage,
    renderView, setRefreshSpinner in *.

Ltac simpl_world :=
  cbn -[deriveVisibleCoins arrayIncludes setItem pretty String.append
        List.filter String.eqb] in *.

Ltac execute :=
  unfold_handlers; unfold_monad; simpl_world;
  repeat (case_match; simpl_world; simplify_eq).

(** * Proofs *)

(** ** Sorting *)

Section SortFacts.
Context {A : Type} (cmp : A → A → Q).

Lemma insertSorted_perm x l : insertSorted cmp x l ≡ₚ x :: l.
Proof.
  induction l as [|y l IH]; simpl; [done|].
  destruct (Qlt_le_dec 0 (cmp x y)); [|done].
  rewrite IH. apply Permutation_swap.
Qed.

Lemma stableSort_perm l : stableSort cmp l ≡ₚ l.
Proof.
  induction l as [|x l IH]; simpl; [done|].
  by rewrite insertSorted_perm, IH.
Qed.

(** Inserting moves [x] past no element of a class [p] of mutually tied
    elements that [x] belongs to. *)
Lemma filter_insertSorted (p : A → bool) x l :
  (∀ y, p x = true → p y = true → ¬ (0 < cmp x y)%Q) →
  List.filter p (insertSorted cmp x l) = List.filter p (x :: l).
Proof.
  intros Htie. induction l as [|y l IH]; [done|].
  cbn [insertSorted]. destruct (Qlt_le_dec 0 (cmp x y)) as [Hlt|_]; [|done].
  cbn [List.filter] in *. rewrite IH.
  destruct (p x) eqn:Hx; [|done].
  destruct (p y) eqn:Hy; [|done].
  destruct (Htie y eq_refl Hy Hlt).
Qed.

Lemma filter_stableSort (p : A → bool) l :
  (∀ x y, p x = true → p y = true → ¬ (0 < cmp x y)%Q) →
  List.filter p (stableSort cmp l) = List.filter p l.
Proof.
  intros Htie. induction l as [|x l IH]; [done|].
  cbn [stableSort foldr]. fold (stableSort cmp l).
  rewrite filter_insertSorted by (intros y; apply Htie).
  cbn [List.filter]. by rewrite IH.
Qed.

(** Adjacent elements of the result are in order as soon as the
    comparator never puts each of two elements after the other. *)
Lemma insertSorted_sorted x l :
  (∀ a b, (0 < cmp a b)%Q → ¬ (0 < cmp b a)%Q) →
  Sorted (λ a b, ¬ (0 < cmp a b)%Q) l →
  Sorted (λ a b, ¬ (0 < cmp a b)%Q) (insertSorted cmp x l).
Proof.
  intros Hasym. induction 1 as [|y l Hs IH Hhd]; cbn [insertSorted].
  { repeat constructor. }
  destruct (Qlt_le_dec 0 (cmp x y)) as [Hlt|Hle].
  - constructor; [done|].
    destruct Hhd as [|z l Hz]; cbn [insertSorted].
    + constructor. by apply Hasym.
    + destruct (Qlt_le_dec 0 (cmp x z)); constructor; [done|by apply Hasym].
  - constructor; [by constructor|]. constructor. lra.
Qed.

Lemma stableSort_sorted l :
  (∀ a b, (0 < cmp a b)%Q → ¬ (0 < cmp b a)%Q) →
  Sorted (λ a b, ¬ (0 < cmp a b)%Q) (stableSort cmp l).
Proof.
  intros Hasym. induction l as [|x l IH]; [constructor|].
  cbn [stableSort foldr]. by apply insertSorted_sorted.
Qed.
End SortFacts.

(** Order of occurrence and filtering. *)

Lemma List_filter_sublist {A} (p : A → bool) l :
  List.filter p l `sublist_of` l.
Proof.
  induction l as [|x l IH]; cbn [List.filter]; [done|].
  destruct (p x); by constructor.
Qed.

Lemma sublist_List_filter {A} (p : A → bool) l1 l2 :
  l1 `sublist_of` l2 → List.filter p l1 `sublist_of` List.filter p l2.
Proof.
  induction 1 as [|x l1 l2 _ IH|x l1 l2 _ IH]; cbn [List.filter]; [done|..].
  - destruct (p x); [by constructor|done].
  - destruct (p x); [by constructor|done].
Qed.

Lemma sublist_pair_filter {A} (p : A → bool) a b l1 l2 :
  p a = true → p b = true →
  List.filter p l1 = List.filter p l2 →
  [a; b] `sublist_of` l1 → [a; b] `sublist_of` l2.
Proof.
  intros Ha Hb Heq Hsub.
  apply (sublist_List_filter p) in Hsub.
  cbn [List.filter] in Hsub. rewrite Ha, Hb, Heq in Hsub.
  etrans; [exact Hsub|]. apply List_filter_sublist.
Qed.

Lemma List_filter_filter {A} (f g : A → bool) l :
  List.filter g (List.filter f l) = List.filter (λ x, f x && g x) l.
Proof.
  induction l as [|x l IH]; [done|]. cbn [List.filter].
  destruct (f x); cbn [List.filter andb]; [|done].
  destruct (g x); by rewrite IH.
Qed.

Lemma Sorted_impl {A} (R R' : A → A → Prop) l :
  (∀ a b, R a b → R' a b) → Sorted R l → Sorted R' l.
Proof.
  intros Himp. induction 1 as [|x l _ IH Hhd]; constructor; [done|].
  destruct Hhd; constructor; auto.
Qed.

(** ** The pipeline *)

Section PipelineFacts.
Context `{Builtins}.

Lemma direction_cases order :
  (order = "asc" ∧ direction order = 1%Q)
  ∨ (order ≠ "asc" ∧ direction order = (-1)%Q).
Proof.
  unfold direction. destruct (String.eqb_spec order "asc"); auto.
Qed.

(** The three kinds of value [getSorter] returns. *)
Lemma getSorter_cases field order :
  (∃ key, numericKey field = Some key
          ∧ getSorter field order
            = Comparator (λ a b, direction order * (key a - key b))%Q)
  ∨ (field = "name" ∧ numericKey field = None
     ∧ getSorter field order = Comparator (cmp_name (direction order)))
  ∨ (field ≠ "name" ∧ numericKey field = None
     ∧ arrayIncludes objectPrototypeKeys field = true
     ∧ getSorter field order = Inherited field).
Proof.
  unfold getSorter, comparators, numericKey.
  destruct (String.eqb field "market_cap") eqn:E1; [left; eauto|].
  destruct (String.eqb field "price") eqn:E2; [left; eauto|].
  destruct (String.eqb field "change") eqn:E3; [left; eauto|].
  destruct (String.eqb_spec field "name") as [->|E4].
  { right; left. done. }
  destruct (String.eqb field "volume") eqn:E5; [left; eauto|].
  destruct (arrayIncludes objectPrototypeKeys field) eqn:E6.
  - right; right. done.
  - left. eauto.
Qed.

Lemma getSorter_unknown_field field order :
  field ∉ SortField →
  arrayIncludes objectPrototypeKeys field = false →
  getSorter field order = Comparator (cmp_market_cap (direction order)).
Proof.
  intros Hnot Hproto. unfold getSorter, comparators.
  repeat match goal with
  | |- context [String.eqb field ?s] =>
      destruct (String.eqb_spec field s) as [->|_];
      [exfalso; apply Hnot; unfold SortField; set_solver|]
  end.
  by rewrite Hproto.
Qed.

Lemma arraySort_perm sorter arr l :
  arraySort sorter arr = Normal l → l ≡ₚ arr.
Proof.
  destruct sorter as [cmp|key]; cbn [arraySort].
  - intros [= <-]. apply stableSort_perm.
  - repeat case_match; by intros [= <-].
Qed.

Lemma arraySort_inherited key arr l :
  arraySort (Inherited key) arr = Normal l → l = arr.
Proof. cbn [arraySort]. repeat case_match; by intros [= <-]. Qed.

Lemma watchlisted_keeps S :
  watchlisted S = List.filter (keeps S) (allCoins S).
Proof.
  unfold watchlisted, keeps, matchesQuery.
  set (query := trim (toLowerCase (searchQuery S))).
  destruct (watchlistOnly S).
  - rewrite List_filter_filter. apply List.filter_ext. intros coin.
    by destruct (falsy query).
  - apply List.filter_ext. intros coin. rewrite andb_true_r.
    by destruct (falsy query).
Qed.

(** The comparator of a numeric field orders by the key, downwards
    unless the order is ['asc']. *)
Lemma numeric_sorted order key l :
  let cmp := (λ a b, direction order * (key a - key b))%Q in
  (order = "asc" → ascendingBy key (stableSort cmp l))
  ∧ (order ≠ "asc" → descendingBy key (stableSort cmp l)).
Proof.
  intros cmp.
  assert (Hs : Sorted (λ a b, ¬ (0 < cmp a b)%Q) (stableSort cmp l)).
  { apply stableSort_sorted. intros a b. unfold cmp.
    destruct (direction_cases order) as [[_ ->]|[_ ->]]; lra. }
  split; intros Ho; apply Sorted_StronglySorted.
  - intros a b c ??. cbn in *. lra.
  - eapply Sorted_impl; [|exact Hs]. intros a b. unfold cmp.
    destruct (direction_cases order) as [[_ ->]|[? _]]; [lra|done].
  - intros a b c ??. cbn in *. lra.
  - eapply Sorted_impl; [|exact Hs]. intros a b. unfold cmp.
    destruct (direction_cases order) as [[? _]|[_ ->]]; [done|lra].
Qed.

(** C1. For every state, what [deriveVisibleCoins] returns is a
    rearrangement of exactly the records of [allCoins] that pass the
    filters: a record is kept iff the trimmed, case-folded query is
    empty or is a substring of the case-folded name or symbol, and, when
    [watchlistOnly] is on, its identifier is in [favorites]; every kept
    record occurs as often as in [allCoins], nothing else occurs. It
    does return, unless [sortBy] is the name of a property found on
    [Object.prototype], which no sort field is. *)
Theorem derive_keeps_exactly_the_filtered (S : AppState) :
  match deriveVisibleCoins S with
  | Normal l => l ≡ₚ List.filter (keeps S) (allCoins S)
  | Throw e =>
      e = Raised "TypeError"
      ∧ arrayIncludes objectPrototypeKeys (sortBy S) = true
      ∧ sortBy S ∉ SortField
  end.
Proof.
  unfold deriveVisibleCoins.
  destruct (arraySort _ _) as [l|e] eqn:Hsort.
  - rewrite <-watchlisted_keeps. by eapply arraySort_perm.
  - destruct (getSorter_cases (sortBy S) (sortOrder S))
      as [(key & _ & Hg)|[(_ & _ & Hg)|(Hname & Hkey & Hproto & Hg)]];
      rewrite Hg in Hsort; [done..|].
    split_and!; [|done|].
    + cbn [arraySort] in Hsort. by repeat case_match; simplify_eq.
    + unfold SortField. intros Hin.
      repeat (apply elem_of_cons in Hin as [Hin|Hin];
              [rewrite Hin in Hproto; discriminate Hproto|]).
      by apply elem_of_nil in Hin.
Qed.

(** C3. The sort step is stable. [localeCompare] returns 0 on identical
    strings; then, for every state and every two records whose sort keys
    under the selected field are equal, one occurs before the other in
    the result of [deriveVisibleCoins] iff it does so in the filtered
    list that was sorted, whatever the sort order. *)
Theorem sort_is_stable (S : AppState) (l : list CoinData) (a b : CoinData) :
  (∀ s, localeCompare s s = 0%Z) →
  deriveVisibleCoins S = Normal l →
  sameSortKey (sortBy S) a b →
  before a b l ↔ before a b (watchlisted S).
Proof.
  intros Hrefl Hl Hsame. unfold deriveVisibleCoins in Hl.
  unfold sameSortKey, before in *.
  destruct (getSorter_cases (sortBy S) (sortOrder S))
    as [(key & Hkey & Hg)|[(Hname & Hkey & Hg)|(Hname & Hkey & _ & Hg)]];
    rewrite Hg in Hl; rewrite Hkey in Hsame.
  - injection Hl as <-.
    set (p := λ y : CoinData, Qeq_bool (key y) (key a)).
    assert (Ha : p a = true) by (apply Qeq_bool_iff; reflexivity).
    assert (Hb : p b = true) by (apply Qeq_bool_iff; by symmetry).
    assert (Hf : List.filter p (stableSort
                   (λ a b, direction (sortOrder S) * (key a - key b))%Q
                   (watchlisted S)) = List.filter p (watchlisted S)).
    { apply filter_stableSort. intros x y Hx Hy.
      apply Qeq_bool_iff in Hx, Hy.
      destruct (direction_cases (sortOrder S)) as [[_ ->]|[_ ->]]; lra. }
    split; apply (sublist_pair_filter p); auto.
  - injection Hl as <-. rewrite Hname in Hsame. cbn in Hsame.
    set (p := λ y : CoinData, String.eqb (Coin.name y) (Coin.name a)).
    assert (Ha : p a = true) by apply String.eqb_refl.
    assert (Hb : p b = true) by (apply String.eqb_eq; done).
    assert (Hf : List.filter p (stableSort
                   (cmp_name (direction (sortOrder S))) (watchlisted S))
                 = List.filter p (watchlisted S)).
    { apply filter_stableSort. intros x y Hx Hy.
      apply String.eqb_eq in Hx, Hy. unfold cmp_name.
      rewrite Hx, Hy, Hrefl. change (inject_Z 0) with 0%Q.
      destruct (direction_cases (sortOrder S)) as [[_ ->]|[_ ->]]; lra. }
    split; apply (sublist_pair_filter p); auto.
  - by rewrite (arraySort_inherited _ _ _ Hl).
Qed.

(** C7. That an unrecognised sort field selects the [market_cap]
    comparator holds for every name outside the enumeration that
    [Object.prototype] does not define; for the names it defines,
    [getSorter] returns what the lookup finds there: with
    ['constructor'] no comparator at all, and with ['__proto__'] a value
    [sort] refuses, so that the derivation throws. *)
Theorem getSorter_fallback_misses_inherited_keys :
  (∀ order, getSorter "constructor" order = Inherited "constructor")
  ∧ (∀ order, getSorter "__proto__" order = Inherited "__proto__")
  ∧ (∀ S, sortBy S = "__proto__" →
          deriveVisibleCoins S = Throw (Raised "TypeError"))
  ∧ (∀ field order,
       field ∉ SortField →
       arrayIncludes objectPrototypeKeys field = false →
       getSorter field order
       = Comparator (cmp_market_cap (direction order))).
Proof.
  split_and!; try done.
  - intros S HS. unfold deriveVisibleCoins. by rewrite HS.
  - apply getSorter_unknown_field.
Qed.

Lemma positive_inject_Z (z : Z) : (0 < 1 * inject_Z z)%Q ↔ (0 < z)%Z.
Proof.
  rewrite (Zlt_Qlt 0 z). change (inject_Z 0) with 0%Q. split; lra.
Qed.

Lemma negative_inject_Z (z : Z) : (0 < -1 * inject_Z z)%Q ↔ (z < 0)%Z.
Proof.
  rewrite (Zlt_Qlt z 0). change (inject_Z 0) with 0%Q. split; lra.
Qed.

Lemma deriveVisibleCoins_sorted S cmp :
  getSorter (sortBy S) (sortOrder S) = Comparator cmp →
  (∀ a b, (0 < cmp a b)%Q → ¬ (0 < cmp b a)%Q) →
  ∃ l, deriveVisibleCoins S = Normal l
       ∧ l ≡ₚ List.filter (keeps S) (allCoins S)
       ∧ Sorted (λ a b, ¬ (0 < cmp a b)%Q) l.
Proof.
  intros Hg Hasym. unfold deriveVisibleCoins. rewrite Hg. cbn [arraySort].
  eexists. split_and!; [done| |by apply stableSort_sorted].
  rewrite <-watchlisted_keeps. apply stableSort_perm.
Qed.

(** C10. Only the exact string ['asc'] gives direction 1; for every other
    sort order, ['desc'] or not, the direction is -1 and [getSorter]
    returns the comparator it returns for ['desc']. Each of the five
    comparators is the direction times the difference of the numeric key,
    or times [localeCompare] on the names. Hence the derivation returns
    the filtered coins in ascending order of the selected key when the
    order is ['asc'] and in descending order for every other value: for
    the numeric keys, and for the name as soon as [localeCompare] of two
    strings changes sign when they are swapped. *)
Theorem only_asc_sorts_ascending :
  direction "asc" = 1%Q
  ∧ (∀ order,
       order ≠ "asc" →
       direction order = (-1)%Q
       ∧ ∀ field, getSorter field order = getSorter field "desc")
  ∧ (∀ order,
       getSorter "market_cap" order
       = Comparator (λ a b, direction order
                            * (Coin.market_cap a - Coin.market_cap b))%Q
       ∧ getSorter "price" order
         = Comparator (λ a b, direction order
                              * (Coin.current_price a - Coin.current_price b))%Q
       ∧ getSorter "change" order
         = Comparator (λ a b, direction order
                              * (Coin.price_change_percentage_24h a
                                 - Coin.price_change_percentage_24h b))%Q
       ∧ getSorter "name" order
         = Comparator (λ a b, direction order
                              * inject_Z (localeCompare (Coin.name a)
                                                        (Coin.name b)))%Q
       ∧ getSorter "volume" order
         = Comparator (λ a b, direction order
                              * (Coin.total_volume a - Coin.total_volume b))%Q)
  ∧ (∀ S key,
       numericKey (sortBy S) = Some key →
       ∃ l, deriveVisibleCoins S = Normal l
            ∧ l ≡ₚ List.filter (keeps S) (allCoins S)
            ∧ (sortOrder S = "asc" → ascendingBy key l)
            ∧ (sortOrder S ≠ "asc" → descendingBy key l))
  ∧ ((∀ s t, (localeCompare s t < 0)%Z ↔ (0 < localeCompare t s)%Z) →
     ∀ S,
       sortBy S = "name" →
       ∃ l, deriveVisibleCoins S = Normal l
            ∧ l ≡ₚ List.filter (keeps S) (allCoins S)
            ∧ (sortOrder S = "asc" →
               Sorted (λ a b, (localeCompare (Coin.name a) (Coin.name b)
                               <= 0)%Z) l)
            ∧ (sortOrder S ≠ "asc" →
               Sorted (λ a b, (0 <= localeCompare (Coin.name a)
                                                  (Coin.name b))%Z) l)).
Proof.
  split_and!; [done|..].
  - intros order Ho.
    assert (Hd : direction order = (-1)%Q).
    { by destruct (direction_cases order) as [[? _]|[_ ?]]. }
    split; [done|]. intros field. unfold getSorter. by rewrite Hd.
  - done.
  - intros S key Hkey.
    destruct (getSorter_cases (sortBy S) (sortOrder S))
      as [(key' & Hkey' & Hg)|[(_ & Hkey' & _)|(_ & Hkey' & _)]];
      [|congruence..].
    replace key' with key in Hg by congruence.
    exists (stableSort (λ a b, direction (sortOrder S) * (key a - key b))%Q
                       (watchlisted S)).
    unfold deriveVisibleCoins. rewrite Hg. split_and!; [done|..].
    + rewrite <-watchlisted_keeps. apply stableSort_perm.
    + by apply numeric_sorted.
    + by apply numeric_sorted.
  - intros Hanti S Hname.
    assert (Hg : getSorter (sortBy S) (sortOrder S)
                 = Comparator (cmp_name (direction (sortOrder S))))
      by by rewrite Hname.
    assert (Hasym : ∀ a b,
              (0 < cmp_name (direction (sortOrder S)) a b)%Q →
              ¬ (0 < cmp_name (direction (sortOrder S)) b a)%Q).
    { intros a b. unfold cmp_name.
      destruct (direction_cases (sortOrder S)) as [[_ ->]|[_ ->]];
        rewrite ?positive_inject_Z, ?negative_inject_Z;
        pose proof (Hanti (Coin.name a) (Coin.name b));
        pose proof (Hanti (Coin.name b) (Coin.name a)); lia. }
    destruct (deriveVisibleCoins_sorted S _ Hg Hasym) as (l & Hl & Hperm & Hs).
    exists l. split_and!; [done|done|..]; intros Ho;
      (eapply Sorted_impl; [|exact Hs]); intros a b; unfold cmp_name;
      destruct (direction_cases (sortOrder S)) as [[? ->]|[? ->]];
      try done; rewrite ?positive_inject_Z, ?negative_inject_Z; lia.
Qed.
End PipelineFacts.

(** ** Commands, preference store and event loop *)

Lemma arrayIncludes_elem_of (arr : list string) (x : string) :
  arrayIncludes arr x = true ↔ x ∈ arr.
Proof.
  unfold arrayIncludes. rewrite existsb_exists. split.
  - intros (y & Hin & Heq). apply String.eqb_eq in Heq as ->.
    by apply list_elem_of_In.
  - intros Hin. exists x. split; [by apply list_elem_of_In|].
    apply String.eqb_refl.
Qed.

Lemma elem_of_List_filter_ne (l : list string) (x y : string) :
  y ∈ List.filter (λ id, negb (String.eqb id x)) l ↔ y ∈ l ∧ y ≠ x.
Proof.
  rewrite !list_elem_of_In, filter_In, negb_true_iff.
  by rewrite String.eqb_neq.
Qed.

Section CommandFacts.
Context `{Builtins}.

Lemma loadFromStorage_unusable ls key defaultValue :
  unusable ls key →
  loadFromStorage ls key defaultValue = Normal defaultValue.
Proof.
  unfold loadFromStorage, getItem, unusable.
  intros [->|[Hnone|(raw & e & Hraw & Hparse)]]; [done|..];
    destruct (accessible ls); try done.
  - by rewrite Hnone.
  - by rewrite Hraw, Hparse.
Qed.

Lemma loadFromStorage_parsed ls key defaultValue raw v :
  accessible ls = true → items ls !! key = Some raw →
  JSON_parse raw = Normal v →
  loadFromStorage ls key defaultValue = Normal v.
Proof.
  unfold loadFromStorage, getItem. by intros -> -> ->.
Qed.

(** C9. For every key and default, reading the preference store never
    raises; it returns the parsed value when the store can be read, the
    key is present and its text parses, and the default when the store
    cannot be read, the key is absent or the text fails to parse. *)
Theorem loadFromStorage_falls_back
    (ls : Storage) (key : string) (defaultValue : JsValue) :
  (∃ v, loadFromStorage ls key defaultValue = Normal v)
  ∧ (∀ raw v,
       accessible ls = true → items ls !! key = Some raw →
       JSON_parse raw = Normal v →
       loadFromStorage ls key defaultValue = Normal v)
  ∧ (unusable ls key →
     loadFromStorage ls key defaultValue = Normal defaultValue).
Proof.
  split_and!.
  - unfold loadFromStorage, getItem. repeat case_match; eauto.
  - apply loadFromStorage_parsed.
  - apply loadFromStorage_unusable.
Qed.

(** C6. In every world where [isLoading] is set, [loadData] returns at
    once: the world it leaves is the one it found, so no field of the
    state changes and no call is made, to the data source or elsewhere. *)
Theorem loadData_while_loading_is_noop (w : World) :
  isLoading (State w) = true → loadData w = (Normal (), w).
Proof. intros Hloading. unfold loadData. unfold_monad. by rewrite Hloading. Qed.

Lemma toggleFavorite_favorites coinId w :
  favorites (State (toggleFavorite coinId w).2)
  = if arrayIncludes (favorites (State w)) coinId
    then List.filter (λ id, negb (String.eqb id coinId)) (favorites (State w))
    else favorites (State w) ++ [coinId].
Proof. by execute. Qed.

(** C8. For every world and every coin id, calling [toggleFavorite] twice
    with that id leaves a favorites list with the same members as the
    one it started from. *)
Theorem toggleFavorite_twice_restores_favorites (coinId : string) (w : World) :
  let w2 := (toggleFavorite coinId (toggleFavorite coinId w).2).2 in
  list_to_set (favorites (State w2))
  =@{gset string} list_to_set (favorites (State w)).
Proof.
  intros w2. unfold w2. rewrite !toggleFavorite_favorites.
  destruct (arrayIncludes (favorites (State w)) coinId) eqn:Hin.
  - apply arrayIncludes_elem_of in Hin.
    assert (arrayIncludes (List.filter (λ id, negb (String.eqb id coinId))
              (favorites (State w))) coinId = false) as ->.
    { apply not_true_is_false. rewrite arrayIncludes_elem_of.
      rewrite elem_of_List_filter_ne. naive_solver. }
    apply set_eq. intros y.
    rewrite !elem_of_list_to_set, elem_of_app, elem_of_List_filter_ne.
    rewrite list_elem_of_singleton.
    destruct (decide (y = coinId)); naive_solver.
  - assert (coinId ∉ favorites (State w)) as Hnotin.
    { rewrite <-arrayIncludes_elem_of. by rewrite Hin. }
    assert (arrayIncludes (favorites (State w) ++ [coinId]) coinId = true)
      as ->.
    { apply arrayIncludes_elem_of. set_solver. }
    apply set_eq. intros y.
    rewrite !elem_of_list_to_set, elem_of_List_filter_ne, elem_of_app.
    rewrite list_elem_of_singleton. naive_solver.
Qed.

(** An event that settles no fetch leaves an in-flight fetch in flight
    and does not touch [allCoins]. *)
Lemma fire_while_loading w e :
  match e with FetchSettled _ => False | _ => True end →
  isLoading (State w) = true →
  isLoading (State (fire w e)) = true
  ∧ allCoins (State (fire w e)) = allCoins (State w).
Proof. intros He Hloading. destruct e; by execute. Qed.

Lemma run_while_loading events w :
  noSettle events →
  isLoading (State w) = true →
  isLoading (State (run events w)) = true
  ∧ allCoins (State (run events w)) = allCoins (State w).
Proof.
  unfold noSettle, run. intros Hev. revert w.
  induction Hev as [|e events He _ IH]; intros w Hloading; [done|].
  cbn [foldl].
  destruct (fire_while_loading w e He Hloading) as [Hl Hc].
  destruct (IH _ Hl) as [Hl' Hc']. split; [done|congruence].
Qed.

(** C5. Take any execution of [loadData] that starts a fetch: the call,
    then any events while the fetch is pending, then the settlement.
    Whatever the outcome, [isLoading] is cleared at the end. When the
    data source fails, [allCoins] is what it was before the call, and
    the handler's calls are: the failure's message (or the stock text
    when it has none) to [showError], the failure toast, the console
    log, and the spinner reset. *)
Theorem loadData_failure_keeps_stale_data
    (w0 : World) (events : list Event) (outcome : FetchOutcome) :
  isLoading (State w0) = false →
  noSettle events →
  let w1 := (loadData w0).2 in
  let w2 := run events w1 in
  let w3 := fire w2 (FetchSettled outcome) in
  fetchCoins ∈ trace w1
  ∧ isLoading (State w3) = false
  ∧ ∀ err, outcome = Rejected err →
      allCoins (State w3) = allCoins (State w0)
      ∧ trace w3
        = trace w2
          ++ [ showError (default "An unknown error occurred." (message err));
               showToast "Failed to load data" "danger";
               console "error";
               dom "refreshBtn" "classList.spinning" "false" ].
Proof.
  intros Hidle Hev w1 w2 w3.
  assert (Hw1 : isLoading (State w1) = true
                ∧ allCoins (State w1) = allCoins (State w0)
                ∧ fetchCoins ∈ trace w1).
  { unfold w1. execute. split_and!; [done..|]. set_solver. }
  destruct Hw1 as (Hl1 & Hc1 & Hf1).
  destruct (run_while_loading events w1 Hev Hl1) as [Hl2 Hc2].
  fold w2 in Hl2, Hc2. split_and!; [done|..].
  - unfold w3. clearbody w2. clear -Hl2. by execute.
  - intros err ->. rewrite <-Hc1, <-Hc2. unfold w3. clearbody w2.
    clear -Hl2. execute. by rewrite <-!app_assoc.
Qed.

(** C4. When the watchlist toggle turns the filter on while there is no
    favorite, the empty-watchlist presentation is invoked and the
    derivation is not run. When [toggleFavorite] removes the only
    favorite while the filter is on, the derivation is run, and the
    empty-watchlist presentation is invoked after the view it returns
    has been rendered. *)
Theorem empty_watchlist_presentation (w : World) :
  (watchlistOnly (State w) = false → favorites (State w) = [] →
   let w' := fire w WatchlistToggleClick in
   watchlistOnly (State w') = true
   ∧ ∃ calls, trace w' = trace w ++ calls
              ∧ showWatchlistEmpty ∈ calls ∧ derive ∉ calls)
  ∧ (∀ coinId,
       watchlistOnly (State w) = true → favorites (State w) = [coinId] →
       let w' := (toggleFavorite coinId w).2 in
       watchlistOnly (State w') = true ∧ favorites (State w') = []
       ∧ derive ∈ trace w'
       ∧ ∀ l, deriveVisibleCoins (State w') = Normal l →
           ∃ calls, trace w'
             = trace w ++ calls
               ++ [ derive; renderCoins l [];
                    updateStats (length (allCoins (State w))) (length l) 0;
                    showWatchlistEmpty ]).
Proof.
  split.
  - intros Hoff Hnone w'. unfold w'.
    execute; rewrite ?Hoff, ?Hnone in *; cbn in *; try done.
    split; [done|]. eexists. rewrite <-!app_assoc. split; [done|].
    cbn [app]. split; [set_solver|].
    intros Hin. repeat (apply elem_of_cons in Hin as [?|Hin]; [done|]).
    by apply elem_of_nil in Hin.
  - intros coinId Hon Hfavs w'.
    assert (Hrm : List.filter (λ id, negb (String.eqb id coinId)) [coinId]
                  = []).
    { cbn [List.filter]. by rewrite String.eqb_refl. }
    assert (Hinc : arrayIncludes [coinId] coinId = true).
    { apply arrayIncludes_elem_of. set_solver. }
    unfold w'.
    execute; rewrite ?Hfavs, ?Hrm, ?Hon, ?Hinc in *; simplify_eq;
      simpl_world; try done.
    all: split_and!; [done|done|set_solver|].
    all: intros l.
    all: match goal with
         | Hd : deriveVisibleCoins _ = _ |- _ => rewrite Hd
         end; intros ?; simplify_eq.
    all: rewrite <-!app_assoc; cbn [app].
    all: first [by eexists [_] | by eexists [_; _]].
Qed.

Lemma initialState_fields ls S :
  initialState ls = Some S →
  loadFromStorage ls STORAGE_KEYS.SORT_BY (JStr "market_cap")
  = Normal (JStr (sortBy S))
  ∧ loadFromStorage ls STORAGE_KEYS.SORT_ORDER (JStr "desc")
    = Normal (JStr (sortOrder S))
  ∧ loadFromStorage ls STORAGE_KEYS.THEME (JStr "dark")
    = Normal (JStr (theme S)).
Proof.
  unfold initialState, hydrate, asString. cbn [h_sortBy h_sortOrder h_theme].
  intros Hinit.
  destruct (asStrings _) as [favs|]; [|done].
  destruct (loadFromStorage ls STORAGE_KEYS.SORT_BY _) as [[]|]; try done.
  destruct (loadFromStorage ls STORAGE_KEYS.SORT_ORDER _) as [[]|]; try done.
  destruct (loadFromStorage ls STORAGE_KEYS.THEME _) as [[]|]; try done.
  cbn in Hinit. by simplify_eq.
Qed.

(** C2, as the code has it. After start-up each of [sortBy], [sortOrder]
    and [theme] holds its default ([market_cap], [desc], [dark]) when the
    preference store cannot be read, the key is missing or the stored
    text fails to parse; a stored text that parses to a string is used as
    it is, with no check against the enumeration. If the three fields
    hold enumeration values they still do after every event, provided
    the sort selection delivers one; the sort order toggle always leaves
    [sortOrder] in [asc, desc], and the theme toggle always leaves
    [theme] in [dark, light]. *)
Theorem prefs_default_only_when_unusable :
  (∀ ls S,
     initialState ls = Some S →
     (unusable ls STORAGE_KEYS.SORT_BY → sortBy S = "market_cap")
     ∧ (unusable ls STORAGE_KEYS.SORT_ORDER → sortOrder S = "desc")
     ∧ (unusable ls STORAGE_KEYS.THEME → theme S = "dark"))
  ∧ (∀ ls S raw v,
       initialState ls = Some S → accessible ls = true →
       JSON_parse raw = Normal (JStr v) →
       (items ls !! STORAGE_KEYS.SORT_BY = Some raw → sortBy S = v)
       ∧ (items ls !! STORAGE_KEYS.SORT_ORDER = Some raw → sortOrder S = v)
       ∧ (items ls !! STORAGE_KEYS.THEME = Some raw → theme S = v))
  ∧ (∀ w e,
       validPrefs (State w) →
       match e with SortChange value => value ∈ SortField | _ => True end →
       validPrefs (State (fire w e)))
  ∧ (∀ w,
       sortOrder (State (fire w SortOrderClick)) ∈ SortOrder
       ∧ theme (State (fire w ThemeToggleClick)) ∈ Theme).
Proof.
  split_and!.
  - intros ls S (Hby & Horder & Htheme)%initialState_fields.
    split_and!; intros Hun;
      [rewrite loadFromStorage_unusable in Hby
      |rewrite loadFromStorage_unusable in Horder
      |rewrite loadFromStorage_unusable in Htheme]; congruence.
  - intros ls S raw v (Hby & Horder & Htheme)%initialState_fields Hacc Hparse.
    split_and!; intros Hraw;
      [rewrite (loadFromStorage_parsed _ _ _ _ _ Hacc Hraw Hparse) in Hby
      |rewrite (loadFromStorage_parsed _ _ _ _ _ Hacc Hraw Hparse) in Horder
      |rewrite (loadFromStorage_parsed _ _ _ _ _ Hacc Hraw Hparse) in Htheme];
      congruence.
  - intros w e (Hby & Horder & Htheme) He. unfold validPrefs.
    destruct e; execute; split_and!; try done;
      unfold SortOrder, Theme; set_solver.
  - intros w. unfold SortOrder, Theme.
    split; execute; set_solver.
Qed.
End CommandFacts.

(** ** The statements at concrete worlds, with the [Sample] built-ins *)

Lemma codeCompare_refl s : Sample.codeCompare s s = 0%Z.
Proof.
  unfold Sample.codeCompare. pose proof (String.compare_antisym s s) as Hc.
  by destruct (String.compare s s).
Qed.

(** The scenarios of the specification: two coins by descending market
    cap, a search for "bet", and the watchlist filter with one favorite. *)
Example derive_two_coins :
  deriveVisibleCoins (H := Sample.builtins)
    (set_allCoins [Sample.alpha; Sample.beta] Sample.state0)
  = Normal [Sample.alpha; Sample.beta].
Proof. vm_compute. reflexivity. Qed.

Example derive_search_bet :
  deriveVisibleCoins (H := Sample.builtins)
    (set_searchQuery " Bet " (set_allCoins [Sample.alpha; Sample.beta]
                                           Sample.state0))
  = Normal [Sample.beta].
Proof. vm_compute. reflexivity. Qed.

Example derive_watchlist :
  deriveVisibleCoins (H := Sample.builtins)
    (set_watchlistOnly true (set_favorites ["b"] Sample.state0))
  = Normal [Sample.beta].
Proof. vm_compute. reflexivity. Qed.

Example derive_ascending :
  deriveVisibleCoins (H := Sample.builtins)
    (set_sortOrder "asc" Sample.state0)
  = Normal [Sample.beta; Sample.alpha; Sample.gamma].
Proof. vm_compute. reflexivity. Qed.

Example derive_by_name_descending :
  deriveVisibleCoins (H := Sample.builtins)
    (set_sortBy "name" Sample.state0)
  = Normal [Sample.gamma; Sample.beta; Sample.alpha].
Proof. vm_compute. reflexivity. Qed.

(** [alpha] and [gamma] tie on the market cap; they stay in source order. *)
Lemma sort_is_stable_witness :
  before Sample.alpha Sample.gamma [Sample.alpha; Sample.gamma; Sample.beta]
  ↔ before Sample.alpha Sample.gamma
           [Sample.alpha; Sample.beta; Sample.gamma].
Proof.
  apply (sort_is_stable (H := Sample.builtins) Sample.state0).
  - exact codeCompare_refl.
  - vm_compute. reflexivity.
  - vm_compute. reflexivity.
Defined.

Lemma getSorter_fallback_witness :
  getSorter (H := Sample.builtins) "banana" "desc"
  = Comparator (cmp_market_cap (direction "desc"))
  ∧ deriveVisibleCoins (H := Sample.builtins)
      (set_sortBy "__proto__" Sample.state0)
    = Throw (Raised "TypeError").
Proof.
  destruct (getSorter_fallback_misses_inherited_keys (H := Sample.builtins))
    as (_ & _ & Hthrow & Hfallback).
  split.
  - apply Hfallback; [|vm_compute; reflexivity].
    unfold SortField. intros Hin.
    repeat (apply elem_of_cons in Hin as [Hin|Hin]; [discriminate Hin|]).
    by apply elem_of_nil in Hin.
  - apply Hthrow. reflexivity.
Defined.

Lemma codeCompare_antisym s t :
  (Sample.codeCompare s t < 0)%Z ↔ (0 < Sample.codeCompare t s)%Z.
Proof.
  unfold Sample.codeCompare. rewrite (String.compare_antisym s t).
  destruct (String.compare t s); cbn; lia.
Qed.

Lemma only_asc_sorts_ascending_witness :
  direction "DESC" = (-1)%Q
  ∧ (∃ l, deriveVisibleCoins (H := Sample.builtins)
            (set_sortOrder "DESC" Sample.state0) = Normal l
          ∧ l ≡ₚ [Sample.alpha; Sample.beta; Sample.gamma]
          ∧ descendingBy Coin.market_cap l)
  ∧ (∃ l, deriveVisibleCoins (H := Sample.builtins)
            (set_sortBy "name" (set_sortOrder "DESC" Sample.state0))
          = Normal l
          ∧ Sorted (λ a b, (0 <= Sample.codeCompare (Coin.name a)
                                                    (Coin.name b))%Z) l).
Proof.
  destruct (only_asc_sorts_ascending (H := Sample.builtins))
    as (_ & Hdesc & _ & Hnum & Hname).
  destruct (Hdesc "DESC") as (Hdir & _); [discriminate|].
  split; [exact Hdir|]. split.
  - destruct (Hnum (set_sortOrder "DESC" Sample.state0) Coin.market_cap)
      as (l & Hl & Hperm & _ & Hsorted); [reflexivity|].
    exists l. split_and!; [exact Hl|exact Hperm|].
    apply Hsorted. discriminate.
  - destruct (Hname codeCompare_antisym
                (set_sortBy "name" (set_sortOrder "DESC" Sample.state0)))
      as (l & Hl & _ & _ & Hsorted); [reflexivity|].
    exists l. split; [exact Hl|]. apply Hsorted. discriminate.
Defined.

Lemma loadFromStorage_falls_back_witness :
  loadFromStorage (H := Sample.builtins) Sample.garbledStore
    STORAGE_KEYS.THEME (JStr "dark") = Normal (JStr "dark")
  ∧ loadFromStorage (H := Sample.builtins) Sample.strayStore
      STORAGE_KEYS.SORT_BY (JStr "market_cap") = Normal (JStr "banana").
Proof.
  split.
  - apply (loadFromStorage_falls_back (H := Sample.builtins)).
    right; right. exists "light", (Raised "SyntaxError").
    split; vm_compute; reflexivity.
  - eapply (loadFromStorage_falls_back (H := Sample.builtins));
      vm_compute; reflexivity.
Defined.

Lemma loadData_while_loading_witness :
  loadData Sample.loading = (Normal (), Sample.loading).
Proof. apply loadData_while_loading_is_noop. reflexivity. Defined.

Lemma loadData_failure_witness :
  let w0 := Sample.world Sample.state0 in
  let w3 := fire (H := Sample.builtins)
              (run (H := Sample.builtins) [SortOrderClick; RefreshClick]
                   (loadData w0).2)
              (FetchSettled (Rejected (Error (Some "Rate limit reached.")))) in
  isLoading (State w3) = false
  ∧ allCoins (State w3) = allCoins (State w0)
  ∧ showError "Rate limit reached." ∈ trace w3.
Proof.
  intros w0 w3.
  destruct (loadData_failure_keeps_stale_data (H := Sample.builtins) w0
              [SortOrderClick; RefreshClick]
              (Rejected (Error (Some "Rate limit reached."))))
    as (_ & Hidle & Hfail).
  - reflexivity.
  - repeat constructor.
  - destruct (Hfail _ eq_refl) as [Hcoins Htrace].
    split_and!; [exact Hidle|exact Hcoins|].
    unfold w3. rewrite Htrace. set_solver.
Defined.

Lemma empty_watchlist_witness :
  (∃ calls,
     trace (fire (H := Sample.builtins) (Sample.world Sample.state0)
                 WatchlistToggleClick) = calls
     ∧ showWatchlistEmpty ∈ calls ∧ derive ∉ calls)
  ∧ derive ∈ trace (toggleFavorite (H := Sample.builtins) "a"
                      Sample.lastFavorite).2.
Proof.
  split.
  - destruct (empty_watchlist_presentation (H := Sample.builtins)
                (Sample.world Sample.state0)) as [Hturn _].
    destruct Hturn as (_ & calls & Htrace & Hin & Hnot); [reflexivity..|].
    exists calls. split; [|done]. by rewrite Htrace.
  - destruct (empty_watchlist_presentation (H := Sample.builtins)
                Sample.lastFavorite) as [_ Hlast].
    by destruct (Hlast "a") as (_ & _ & Hderive & _).
Defined.

Lemma prefs_default_witness :
  initialState (H := Sample.builtins) Sample.garbledStore
  = Some Sample.defaults
  ∧ theme Sample.defaults = "dark"
  ∧ validPrefs (State (fire (H := Sample.builtins)
                            (Sample.world Sample.defaults)
                            (SortChange "name"))).
Proof.
  destruct (prefs_default_only_when_unusable (H := Sample.builtins))
    as (Hdefault & _ & Hkeep & _).
  assert (Hinit : initialState (H := Sample.builtins) Sample.garbledStore
                  = Some Sample.defaults) by (vm_compute; reflexivity).
  split; [exact Hinit|]. split.
  - apply (Hdefault _ _ Hinit).
    right; right. exists "light", (Raised "SyntaxError").
    split; vm_compute; reflexivity.
  - apply Hkeep; [|unfold SortField; set_solver].
    unfold validPrefs, SortField, SortOrder, Theme. cbn. set_solver.
Defined.

(** C2 fails on the code: a stored sort field that parses, to a string
    outside the enumeration, becomes [sortBy] as it is. *)
Lemma stray_store_escapes_enum :
  ∃ S, initialState (H := Sample.builtins) Sample.strayStore = Some S
       ∧ sortBy S = "banana"
       ∧ ¬ validPrefs S.
Proof.
  eexists. split; [vm_compute; reflexivity|]. split; [reflexivity|].
  intros [Hin _]. cbn in Hin. unfold SortField in Hin.
  repeat (apply elem_of_cons in Hin as [Hin|Hin]; [discriminate Hin|]).
  by apply elem_of_nil in Hin.
Qed.

(** C4 fails on the code: un-starring the only favorite while the
    watchlist filter is on runs the derivation before the empty-watchlist
    presentation. *)
Lemma last_unfavorite_runs_derive :
  watchlistOnly (State Sample.lastFavorite) = true
  ∧ favorites (State (fire (H := Sample.builtins) Sample.lastFavorite
                           (FavoriteClick "a"))) = []
  ∧ trace (fire (H := Sample.builtins) Sample.lastFavorite
                (FavoriteClick "a"))
    = [ showToast "Alpha removed from Watchlist" "info"; derive;
        renderCoins [] []; updateStats 3 0 0; showWatchlistEmpty ].
Proof. split_and!; vm_compute; reflexivity. Qed.

(** * Further properties of the code *)

(** ** App.js *)

Lemma fetches_app a b : fetches (a ++ b) = fetches a + fetches b.
Proof. unfold fetches. by rewrite List.filter_app, length_app. Qed.

Section AppFacts.
Context `{Builtins}.


Lemma deriveVisibleCoins_perm S l :
  deriveVisibleCoins S = Normal l →
  l ≡ₚ List.filter (keeps S) (allCoins S).
Proof.
  unfold deriveVisibleCoins. intros Hsort.
  rewrite <-watchlisted_keeps. by eapply arraySort_perm.
Qed.

(** X1. [saveToStorage] never throws and never touches the state. When the
    store accepts writes, the key afterwards holds the serialized value,
    every other key holds what it held, and nothing is logged; when it does
    not, the store is as before and one warning goes to the console. *)
Theorem saveToStorage_swallows_failures
    (key : string) (value : JsValue) (w : World) :
  let w' := (saveToStorage key value w).2 in
  (saveToStorage key value w).1 = Normal ()
  ∧ State w' = State w
  ∧ (writable (localStorage w) →
     items (localStorage w')
     = <[key := JSON_stringify value]> (items (localStorage w))
     ∧ writable (localStorage w')
     ∧ trace w' = trace w)
  ∧ (¬ writable (localStorage w) →
     localStorage w' = localStorage w
     ∧ trace w' = trace w ++ [console "warn"]).
Proof.
  unfold saveToStorage, setItem, writable. unfold_monad.
  destruct (accessible (localStorage w)) eqn:Hacc;
    destruct (hasQuota (localStorage w)) eqn:Hquota; cbn;
    rewrite ?Hacc, ?Hquota; naive_solver.
Qed.

Lemma saveToStorage_writable key value w :
  writable (localStorage w) →
  saveToStorage key value w
  = (Normal (),
     {| State := State w;
        localStorage :=
          {| items := <[key := JSON_stringify value]> (items (localStorage w));
             accessible := true; hasQuota := true |};
        trace := trace w |}).
Proof.
  intros [Hacc Hquota]. unfold saveToStorage, setItem. unfold_monad.
  by rewrite Hacc, Hquota.
Qed.

(** X2. Write, then read: when the store accepts writes and the value
    survives [JSON.stringify] followed by [JSON.parse], [loadFromStorage]
    under the same key returns the value [saveToStorage] was given, and
    under any other key what it returned before the write. *)
Theorem save_then_load
    (key : string) (value defaultValue : JsValue) (w : World) :
  writable (localStorage w) →
  roundTrips value →
  let ls' := localStorage (saveToStorage key value w).2 in
  loadFromStorage ls' key defaultValue = Normal value
  ∧ ∀ key' d, key' ≠ key →
      loadFromStorage ls' key' d = loadFromStorage (localStorage w) key' d.
Proof.
  intros Hw Hround ls'. unfold ls'. rewrite saveToStorage_writable by done.
  destruct Hw as [Hacc Hquota].
  unfold loadFromStorage, getItem. cbn. split.
  - rewrite lookup_insert_eq. by rewrite Hround.
  - intros key' d Hne. rewrite lookup_insert_ne by done. by rewrite Hacc.
Qed.

Lemma setItem_writable ls key value :
  writable ls →
  setItem ls key value
  = Normal {| items := <[key := value]> (items ls);
              accessible := true; hasQuota := true |}.
Proof. intros [Hacc Hquota]. unfold setItem. by rewrite Hacc, Hquota. Qed.

Lemma loadFromStorage_written items key value defaultValue quota :
  roundTrips value →
  loadFromStorage
    {| items := <[key := JSON_stringify value]> items;
       accessible := true; hasQuota := quota |} key defaultValue
  = Normal value.
Proof.
  intros Hround. unfold loadFromStorage, getItem. cbn.
  rewrite lookup_insert_eq. by rewrite Hround.
Qed.

(** X3. What a command persists is what the next start-up reads. When the
    store accepts writes and the written value survives [JSON.stringify]
    followed by [JSON.parse], then after a click on a favorite button, on
    the theme toggle or on the sort order toggle, and after a sort
    selection, hydrating from the store yields the value the state now
    holds for that preference. This holds also when rendering the view
    throws, since the write comes first. *)
Theorem written_preferences_are_read_back (w : World) :
  writable (localStorage w) →
  (∀ coinId,
     falsy coinId = false →
     let w' := fire w (FavoriteClick coinId) in
     roundTrips (JArr (JStr <$> favorites (State w'))) →
     h_favorites (hydrate (localStorage w'))
     = Normal (JArr (JStr <$> favorites (State w'))))
  ∧ (let w' := fire w ThemeToggleClick in
     roundTrips (JStr (theme (State w'))) →
     h_theme (hydrate (localStorage w')) = Normal (JStr (theme (State w'))))
  ∧ (let w' := fire w SortOrderClick in
     roundTrips (JStr (sortOrder (State w'))) →
     h_sortOrder (hydrate (localStorage w'))
     = Normal (JStr (sortOrder (State w'))))
  ∧ (∀ value,
       let w' := fire w (SortChange value) in
       roundTrips (JStr value) →
       sortBy (State w') = value
       ∧ h_sortBy (hydrate (localStorage w')) = Normal (JStr value)).
Proof.
  intros Hw. split_and!.
  - intros coinId Hid w'. unfold w', hydrate. cbn [h_favorites].
    clear w'. execute; intros ?;
      match goal with
      | Hs : setItem _ _ _ = _ |- _ =>
          rewrite setItem_writable in Hs by exact Hw; simplify_eq
      end;
      by apply loadFromStorage_written.
  - intros w'. unfold w', hydrate. cbn [h_theme].
    clear w'. execute; intros ?;
      match goal with
      | Hs : setItem _ _ _ = _ |- _ =>
          rewrite setItem_writable in Hs by exact Hw; simplify_eq
      end;
      by apply loadFromStorage_written.
  - intros w'. unfold w', hydrate. cbn [h_sortOrder].
    clear w'. execute; intros ?;
      match goal with
      | Hs : setItem _ _ _ = _ |- _ =>
          rewrite setItem_writable in Hs by exact Hw; simplify_eq
      end;
      by apply loadFromStorage_written.
  - intros value w'. unfold w', hydrate. cbn [h_sortBy].
    clear w'. execute; intros Hround; (split; [done|]); revert Hround;
      intros ?;
      match goal with
      | Hs : setItem _ _ _ = _ |- _ =>
          rewrite setItem_writable in Hs by exact Hw; simplify_eq
      end;
      by apply loadFromStorage_written.
Qed.

Lemma fire_ThemeToggleClick_State w :
  State (fire w ThemeToggleClick)
  = set_theme (if String.eqb (theme (State w)) "dark" then "light" else "dark")
              (State w).
Proof. by execute. Qed.

Lemma fire_SortOrderClick_State w :
  State (fire w SortOrderClick)
  = set_sortOrder
      (if String.eqb (sortOrder (State w)) "desc" then "asc" else "desc")
      (State w).
Proof. by execute. Qed.

(** X4. The theme toggle sets ['light'] when the theme is ['dark'] and
    ['dark'] for every other value, a corrupt one included. From a theme of
    the enumeration two toggles give back the whole state. *)
Theorem theme_toggle_twice (w : World) :
  theme (State (fire w ThemeToggleClick))
  = (if String.eqb (theme (State w)) "dark" then "light" else "dark")
  ∧ (theme (State w) ∈ Theme →
     State (fire (fire w ThemeToggleClick) ThemeToggleClick) = State w).
Proof.
  rewrite !fire_ThemeToggleClick_State. split; [done|].
  unfold Theme. intros Hin.
  destruct (State w) as [ac fv sq sb so th wo il]. cbn in Hin.
  by assert (th = "dark" ∨ th = "light") as [->| ->] by set_solver.
Qed.

(** X5. From a sort order of the enumeration, two clicks on the sort
    order toggle give back the whole state, hence the same derived list.
    From any other stored value the first click sets ['desc'] and the second
    ['asc']: the direction of the sort was -1 before and is 1 after. *)
Theorem sort_order_toggle_twice (w : World) :
  let w2 := fire (fire w SortOrderClick) SortOrderClick in
  (sortOrder (State w) ∈ SortOrder →
   State w2 = State w
   ∧ deriveVisibleCoins (State w2) = deriveVisibleCoins (State w))
  ∧ (sortOrder (State w) ∉ SortOrder →
     sortOrder (State (fire w SortOrderClick)) = "desc"
     ∧ sortOrder (State w2) = "asc"
     ∧ direction (sortOrder (State w)) = (-1)%Q
     ∧ direction (sortOrder (State w2)) = 1%Q).
Proof.
  intros w2. unfold w2. rewrite !fire_SortOrderClick_State.
  unfold SortOrder. split.
  - intros Hin.
    assert (Heq : ∀ S S', S = S' →
              S = S' ∧ deriveVisibleCoins S = deriveVisibleCoins S')
      by (by intros ?? ->).
    apply Heq. destruct (State w) as [ac fv sq sb so th wo il]. cbn in Hin.
    by assert (so = "asc" ∨ so = "desc") as [->| ->] by set_solver.
  - intros Hnot.
    assert (Hasc : String.eqb (sortOrder (State w)) "asc" = false).
    { apply String.eqb_neq. set_solver. }
    assert (Hdesc : String.eqb (sortOrder (State w)) "desc" = false).
    { apply String.eqb_neq. set_solver. }
    unfold direction. cbn. by rewrite Hasc, Hdesc.
Qed.

Lemma List_filter_true {A} (l : list A) : List.filter (λ _, true) l = l.
Proof. induction l as [|x l IH]; [done|]. cbn. by rewrite IH. Qed.

Lemma List_filter_false {A} (l : list A) : List.filter (λ _, false) l = [].
Proof. by induction l. Qed.

(** X6. Each event writes only the fields that are its own. [allCoins]
    changes only when a fetch resolves, [favorites] only on a favorite
    click, [searchQuery] only on search input or clear, [sortBy],
    [sortOrder], [theme] and [watchlistOnly] only on their own control,
    [isLoading] only when a load is requested or settles, and the
    preference store only on the four events that persist a preference. *)
Theorem events_write_only_their_fields (w : World) (e : Event) :
  let S := State w in
  let S' := State (fire w e) in
  (allCoins S' ≠ allCoins S → ∃ coins, e = FetchSettled (Resolved coins))
  ∧ (favorites S' ≠ favorites S → ∃ coinId, e = FavoriteClick coinId)
  ∧ (searchQuery S' ≠ searchQuery S →
     e = ClearSearchClick ∨ ∃ value, e = SearchInput value)
  ∧ (sortBy S' ≠ sortBy S → ∃ value, e = SortChange value)
  ∧ (sortOrder S' ≠ sortOrder S → e = SortOrderClick)
  ∧ (theme S' ≠ theme S → e = ThemeToggleClick)
  ∧ (watchlistOnly S' ≠ watchlistOnly S → e = WatchlistToggleClick)
  ∧ (isLoading S' ≠ isLoading S →
     e = RefreshClick ∨ e = RetryClick ∨ e = RefreshTimer
     ∨ ∃ outcome, e = FetchSettled outcome)
  ∧ (localStorage (fire w e) ≠ localStorage w →
     e = SortOrderClick ∨ e = ThemeToggleClick
     ∨ (∃ value, e = SortChange value) ∨ ∃ coinId, e = FavoriteClick coinId).
Proof.
  intros S S'. unfold S, S'. destruct e; execute; naive_solver.
Qed.

(** X7. [renderView] hands the renderer the derived list and the counters
    its lengths give, and the number shown never exceeds the total; when
    the derivation throws, nothing is rendered and the exception goes to
    the caller. It never changes the state or the store. *)
Theorem renderView_counts (w : World) :
  match deriveVisibleCoins (State w) with
  | Normal visible =>
      renderView w
      = (Normal (),
         {| State := State w; localStorage := localStorage w;
            trace := trace w
              ++ [ derive; renderCoins visible (favorites (State w));
                   updateStats (length (allCoins (State w))) (length visible)
                               (length (favorites (State w))) ] |})
      ∧ length visible ≤ length (allCoins (State w))
  | Throw err =>
      renderView w
      = (Throw err,
         {| State := State w; localStorage := localStorage w;
            trace := trace w ++ [derive] |})
  end.
Proof.
  destruct (deriveVisibleCoins (State w)) as [visible|err] eqn:Hd.
  - split.
    + unfold renderView. unfold_monad. simpl_world. rewrite Hd.
      by rewrite <-!app_assoc.
    + apply deriveVisibleCoins_perm in Hd. rewrite Hd.
      apply List.filter_length_le.
  - unfold renderView. unfold_monad. simpl_world. by rewrite Hd.
Qed.

(** X8. With the watchlist filter off and a query that is empty once
    trimmed and case-folded, the derivation returns all of [allCoins],
    rearranged. With the filter on and no favorite it returns the empty
    list, whatever the query. *)
Theorem derive_pass_through_and_empty_watchlist
    (S : AppState) (l : list CoinData) :
  deriveVisibleCoins S = Normal l →
  (watchlistOnly S = false →
   falsy (trim (toLowerCase (searchQuery S))) = true →
   l ≡ₚ allCoins S)
  ∧ (watchlistOnly S = true → favorites S = [] → l = []).
Proof.
  intros Hd%deriveVisibleCoins_perm. split.
  - intros Hoff Hq. rewrite Hd.
    rewrite (List.filter_ext (keeps S) (λ _, true)).
    + by rewrite List_filter_true.
    + intros c. unfold keeps. by rewrite Hoff, Hq.
  - intros Hon Hnone. apply Permutation_nil_r. rewrite Hd.
    rewrite (List.filter_ext (keeps S) (λ _, false)).
    + by rewrite List_filter_false.
    + intros c. unfold keeps. rewrite Hon, Hnone. apply andb_false_r.
Qed.

(** X9. [toggleFavorite] flips the membership of its id and of no other,
    and a favorites list without a repeated id stays without one under
    every event. *)
Theorem favorites_membership_and_nodup (w : World) :
  (∀ coinId id,
     let favorites' := favorites (State (toggleFavorite coinId w).2) in
     (id ∈ favorites' ↔
      if decide (id = coinId) then coinId ∉ favorites (State w)
      else id ∈ favorites (State w)))
  ∧ (∀ e, NoDup (favorites (State w)) →
          NoDup (favorites (State (fire w e)))).
Proof.
  assert (Hflip : ∀ coinId id,
    id ∈ favorites (State (toggleFavorite coinId w).2) ↔
    if decide (id = coinId) then coinId ∉ favorites (State w)
    else id ∈ favorites (State w)).
  { intros coinId id. rewrite toggleFavorite_favorites.
    destruct (arrayIncludes (favorites (State w)) coinId) eqn:Hin.
    - apply arrayIncludes_elem_of in Hin.
      rewrite elem_of_List_filter_ne. case_decide; naive_solver.
    - assert (coinId ∉ favorites (State w)).
      { rewrite <-arrayIncludes_elem_of. by rewrite Hin. }
      rewrite elem_of_app, list_elem_of_singleton.
      case_decide; naive_solver. }
  split; [exact Hflip|].
  intros e Hnodup.
  assert (Htoggle : ∀ coinId,
            NoDup (favorites (State (toggleFavorite coinId w).2))).
  { intros coinId. rewrite toggleFavorite_favorites.
    destruct (arrayIncludes (favorites (State w)) coinId) eqn:Hin.
    - apply NoDup_ListNoDup, List.NoDup_filter. by apply NoDup_ListNoDup.
    - apply NoDup_app. split_and!; [done| |apply NoDup_singleton].
      intros x Hx ->%list_elem_of_singleton.
      apply arrayIncludes_elem_of in Hx. congruence. }
  destruct e; try (by execute).
  unfold fire, dispatch, onFavoriteClick.
  destruct (falsy coinId); [done|apply Htoggle].
Qed.

(** X10. When the awaited fetch resolves, [allCoins] becomes the delivered
    list and [isLoading] is cleared. If the derivation returns, the view is
    rendered and the success toast names the number of coins. If it throws
    (the sort field names a property of [Object.prototype]), the handler
    reports a failed load, with the exception's message, although the new
    data has been stored. *)
Theorem loadData_success (w : World) (coins : list CoinData) :
  isLoading (State w) = true →
  let S1 := set_allCoins coins (State w) in
  let w' := fire w (FetchSettled (Resolved coins)) in
  State w' = set_isLoading false S1
  ∧ match deriveVisibleCoins S1 with
    | Normal visible =>
        trace w'
        = trace w
          ++ [ derive; renderCoins visible (favorites (State w));
               updateStats (length coins) (length visible)
                           (length (favorites (State w)));
               showToast (pretty (length coins)
                          +:+ " coins loaded successfully") "success";
               dom "refreshBtn" "classList.spinning" "false" ]
    | Throw err =>
        trace w'
        = trace w
          ++ [ derive;
               showError (default "An unknown error occurred." (message err));
               showToast "Failed to load data" "danger";
               console "error";
               dom "refreshBtn" "classList.spinning" "false" ]
    end.
Proof.
  intros Hloading S1 w'. unfold S1, w'.
  execute; simpl_world; rewrite <-?app_assoc; done.
Qed.

Lemma initialState_transient ls S :
  initialState ls = Some S →
  allCoins S = [] ∧ searchQuery S = EmptyString
  ∧ watchlistOnly S = false ∧ isLoading S = false.
Proof.
  unfold initialState. intros Hinit.
  repeat (apply bind_Some in Hinit as (? & _ & Hinit)).
  by simplify_eq.
Qed.

(** One event changes the number of requests made and the free slot so
    that their sum grows by at most one, and only when a fetch settles. *)
Lemma fire_fetches w e :
  fetches (trace (fire w e)) + freeSlot (State (fire w e))
  ≤ fetches (trace w) + freeSlot (State w) + settles [e].
Proof.
  unfold freeSlot, settles.
  destruct e; execute; rewrite ?fetches_app; cbn; lia.
Qed.

(** X11. At most one fetch is in flight. Along any run of the event loop
    the number of requests to the data source is at most the number of
    settlements, plus one if no fetch was pending at the beginning; so
    after start-up, which issues the first request, there have been at
    most one more requests than settlements. *)
Theorem one_fetch_in_flight (events : list Event) :
  (∀ w, fetches (trace (run events w)) + freeSlot (State (run events w))
        ≤ fetches (trace w) + freeSlot (State w) + settles events)
  ∧ (∀ ls w, start ls = Some w →
             fetches (trace (run events w)) ≤ 1 + settles events).
Proof.
  assert (Hrun : ∀ w,
    fetches (trace (run events w)) + freeSlot (State (run events w))
    ≤ fetches (trace w) + freeSlot (State w) + settles events).
  { unfold run. induction events as [|e events IH]; intros w; [cbn; lia|].
    cbn [foldl]. specialize (IH (fire w e)).
    pose proof (fire_fetches w e) as He.
    assert (settles (e :: events) = settles [e] + settles events) as ->.
    { unfold settles. cbn. by destruct e. }
    lia. }
  split; [exact Hrun|].
  intros ls w Hstart. specialize (Hrun w).
  assert (fetches (trace w) + freeSlot (State w) = 1); [|lia].
  unfold start in Hstart.
  destruct (initialState ls) as [S|] eqn:Hinit; [|done].
  apply initialState_transient in Hinit as (_ & _ & _ & Hidle).
  cbn in Hstart. injection Hstart as <-.
  unfold restoreUIState, freeSlot.
  execute; rewrite ?fetches_app; cbn; first [done | congruence].
Qed.

End AppFacts.

(** ** API.js *)

Lemma mapM_cons {A B} (f : A → Completion B) x l :
  mapM f (x :: l)
  = match f x with
    | Normal y => match mapM f l with
                  | Normal k => Normal (y :: k)
                  | Throw e => Throw e
                  end
    | Throw e => Throw e
    end.
Proof. done. Qed.

Lemma mapM_Normal {A B} (f : A → Completion B) l k :
  mapM f l = Normal k ↔ Forall2 (λ x y, f x = Normal y) l k.
Proof.
  revert k. induction l as [|x l IH]; intros k.
  - split; [by intros [= <-]; constructor|by inversion 1].
  - rewrite mapM_cons. split.
    + destruct (f x) as [y|] eqn:Hx; [|done].
      destruct (mapM f l) as [k'|] eqn:Hl; [|done].
      intros [= <-]. constructor; [done|]. by apply IH.
    + inversion 1 as [|? y ? k' Hy Hrest]; subst.
      apply IH in Hrest. by rewrite Hy, Hrest.
Qed.

Lemma mapM_Throw {A B} (f : A → Completion B) l e :
  mapM f l = Throw e → Exists (λ x, f x = Throw e) l.
Proof.
  induction l as [|x l IH]; [done|]. rewrite mapM_cons.
  destruct (f x) as [y|e'] eqn:Hx.
  - destruct (mapM f l) as [k'|e'']; [done|].
    intros [= ->]. apply Exists_cons_tl. by apply IH.
  - intros [= ->]. by apply Exists_cons_hd.
Qed.

Lemma orElse_not_null v d : d ≠ JNull → API.orElse v d ≠ JNull.
Proof. intros Hd. by destruct v as [[]|]. Qed.

Section ApiFacts.
Context `{ApiBuiltins}.

(** X13. What [normalizeCoin] returns has no null field. Each field
    other than the symbol holds the value the raw record has under its
    key when there is one and it is not null, and its fallback otherwise;
    the symbol is the upper-cased string the raw record has under
    [symbol], the empty string standing in for a missing or null one. *)
Theorem normalizeCoin_fields_never_null (raw : JsValue) (c : API.Normalized) :
  API.normalizeCoin raw = Normal c →
  Forall (λ v, v ≠ JNull) (API.fields c)
  ∧ (∃ found s, API.prop raw "symbol" = Normal found
                ∧ match found with
                  | None | Some JNull => JStr EmptyString
                  | Some v => v
                  end = JStr s
                ∧ API.symbol c = JStr (toUpperCase s))
  ∧ Forall (λ '(key, fallback, value),
              ∃ found, API.prop raw key = Normal found
                       ∧ value = match found with
                                 | None | Some JNull => fallback
                                 | Some v => v
                                 end)
      [ ("id", JStr "unknown", API.id c);
        ("name", JStr "Unknown", API.name c);
        ("image", JStr EmptyString, API.image c);
        ("current_price", JNum 0, API.current_price c);
        ("market_cap", JNum 0, API.market_cap c);
        ("market_cap_rank", JNum 0, API.market_cap_rank c);
        ("total_volume", JNum 0, API.total_volume c);
        ("high_24h", JNum 0, API.high_24h c);
        ("low_24h", JNum 0, API.low_24h c);
        ("price_change_percentage_24h", JNum 0,
         API.price_change_percentage_24h c);
        ("circulating_supply", JNum 0, API.circulating_supply c) ].
Proof.
  unfold API.normalizeCoin, API.callToUpperCase.
  unfold mbind, Completion_bind.
  destruct raw as [|b|q|s|l|fields]; cbn [API.prop]; [done|..];
    try (destruct (API.orElse
                     (snd <$> List.find (λ kv, String.eqb (fst kv) "symbol")
                                        fields)
                     (JStr EmptyString)) eqn:Hsymbol; try done);
    cbn; intros [= <-]; unfold API.fields; cbn; split_and!.
  all: lazymatch goal with
       | |- ∃ _ _, _ => by eexists _, _
       | |- Forall _ _ =>
           first
             [ solve [ repeat (constructor;
                               [first [done | by apply orElse_not_null]|]);
                       apply Forall_nil_2 ]
             | solve [ repeat (constructor; [by eexists|]);
                       apply Forall_nil_2 ] ]
       end.
Qed.

(** X14. [normalizeCoin] throws, a TypeError, exactly when the raw value
    is [null] or its [symbol] is neither null, nor missing, nor a string;
    otherwise the symbol it returns is the upper-cased raw symbol, the
    empty string standing in for a missing or null one. *)
Theorem normalizeCoin_throws_exactly (raw : JsValue) :
  match API.normalizeCoin raw with
  | Normal c =>
      ∃ sym s, API.prop raw "symbol" = Normal sym
               ∧ API.orElse sym (JStr EmptyString) = JStr s
               ∧ API.symbol c = JStr (toUpperCase s)
  | Throw err =>
      err = Raised "TypeError"
      ∧ (raw = JNull
         ∨ ∃ v, API.prop raw "symbol" = Normal (Some v)
                ∧ v ≠ JNull ∧ ∀ s, v ≠ JStr s)
  end.
Proof.
  unfold API.normalizeCoin, API.callToUpperCase.
  unfold mbind, Completion_bind.
  destruct raw as [|b|q|s|l|fields]; cbn [API.prop];
    try (split; [done|by left]);
    try (cbn; by eexists None, _).
  destruct (snd <$> List.find (λ kv, String.eqb (fst kv) "symbol") fields)
    as [[]|] eqn:Hsym; cbn;
    first [ by eexists _, _
          | split; [done|]; right; eexists; split_and!; done ].
Qed.

(** X15. A raw value that is neither [null] nor an object (a number, a
    string, a boolean, an array) is accepted and normalizes to the record
    of the fallback values, so to the id ['unknown']. *)
Theorem normalizeCoin_of_non_object (raw : JsValue) :
  raw ≠ JNull → (∀ fields, raw ≠ JObj fields) →
  API.normalizeCoin raw = Normal fallbackCoin.
Proof. intros Hnull Hobj. by destruct raw; try done; destruct (Hobj l). Qed.
End ApiFacts.

Section ApiLoad.
Context `{Builtins} `{ApiBuiltins}.

Lemma normalizeCoin_throw raw err :
  API.normalizeCoin raw = Throw err → err = Raised "TypeError".
Proof.
  unfold API.normalizeCoin, API.callToUpperCase.
  unfold mbind, Completion_bind.
  destruct raw as [|b|q|s|l|fields]; cbn [API.prop]; try done;
    try (by intros [= <-]).
  destruct (API.orElse _ _); by intros [= <-].
Qed.

Lemma fetchCoins_cases (result : API.FetchResult) :
  match API.fetchCoins result with
  | Normal coins =>
      ∃ raw data,
        Forall2 (λ r c, API.normalizeCoin r = Normal c) (raw :: data) coins
  | Throw err => (∃ m, err = Error (Some m)) ∨ err = Raised "TypeError"
  end.
Proof.
  destruct result as [|status json]; [left; by eexists|].
  cbn [API.fetchCoins]. destruct (API.ok status) eqn:Hok; cbn [negb];
    [|left; by eexists].
  destruct json as [[| | | |[|raw data]|]|]; try (left; by eexists).
  destruct (mapM API.normalizeCoin (raw :: data)) as [coins|err] eqn:Hmap.
  - apply mapM_Normal in Hmap. by eexists _, _.
  - apply mapM_Throw in Hmap. right.
    apply Exists_exists in Hmap as (r & _ & Hr).
    by apply normalizeCoin_throw in Hr.
Qed.

(** X16. [fetchCoins] resolves only for a response with a 2xx status whose
    body parses to a non-empty array, and then with one normalized record
    per element, in order. Every rejection is an [Error] carrying a
    message, except the TypeError that escapes when an element of the
    array cannot be normalized. *)
Theorem fetchCoins_outcomes (result : API.FetchResult) :
  match API.fetchCoins result with
  | Normal coins =>
      ∃ status raw data,
        result = API.Response status (Normal (JArr (raw :: data)))
        ∧ API.ok status = true
        ∧ Forall2 (λ r c, API.normalizeCoin r = Normal c) (raw :: data) coins
  | Throw err =>
      (∃ m, err = Error (Some m))
      ∨ (err = Raised "TypeError"
         ∧ ∃ status data,
             result = API.Response status (Normal (JArr data))
             ∧ API.ok status = true
             ∧ Exists (λ r, API.normalizeCoin r = Throw err) data)
  end.
Proof.
  destruct result as [|status json]; [left; by eexists|].
  cbn [API.fetchCoins]. destruct (API.ok status) eqn:Hok; cbn [negb];
    [|left; by eexists].
  destruct json as [[| | | |[|raw data]|]|]; try (left; by eexists).
  destruct (mapM API.normalizeCoin (raw :: data)) as [coins|err] eqn:Hmap.
  - apply mapM_Normal in Hmap. by eexists _, _, _.
  - apply mapM_Throw in Hmap. right.
    assert (err = Raised "TypeError") as ->.
    { apply Exists_exists in Hmap as (r & _ & Hr).
      by apply normalizeCoin_throw in Hr. }
    split; [done|]. by eexists _, _.
Qed.

(** X17. Whatever the request delivers, when the fetch it stands for
    settles a pending [loadData]: after a resolution [allCoins] is the
    delivered list and is not empty; after a rejection [allCoins] is
    untouched and the error banner is given the message of the failure
    itself, never the stock text for a failure without message. *)
Theorem settled_load (result : API.FetchResult) (outcome : FetchOutcome)
    (w : World) :
  settlement result = Some outcome →
  isLoading (State w) = true →
  let w' := fire w (FetchSettled outcome) in
  match outcome with
  | Resolved coins => allCoins (State w') = coins ∧ coins ≠ []
  | Rejected err =>
      allCoins (State w') = allCoins (State w)
      ∧ ∃ m, message err = Some m ∧ showError m ∈ trace w'
  end.
Proof.
  intros Hsettle Hloading w'. unfold settlement in Hsettle.
  pose proof (fetchCoins_cases result) as Hout.
  destruct (API.fetchCoins result) as [coins|err].
  - apply fmap_Some in Hsettle as (typed & Hmap & ->).
    split; [unfold w'; by execute|].
    destruct Hout as (raw & data & Hnorm).
    apply mapM_Some in Hmap. intros ->.
    apply Forall2_nil_inv_r in Hmap as ->. inversion Hnorm.
  - injection Hsettle as <-.
    assert (∃ m, message err = Some m) as [m Hm].
    { destruct Hout as [[m ->]| ->]; by eexists. }
    unfold w'. execute; (split; [done|]); exists m;
      (split; [done|]); cbn; set_solver.
Qed.
End ApiLoad.

(** ** UI.js *)

Lemma append_cons c (s t : string) : String c s +:+ t = String c (s +:+ t).
Proof. done. Qed.

Lemma string_append_assoc (s t u : string) : (s +:+ t) +:+ u = s +:+ (t +:+ u).
Proof. induction s as [|c s IH]; [done|]. rewrite !append_cons. by f_equal. Qed.

Lemma replaceAll_app c by_ s t :
  UI.replaceAll c by_ (s +:+ t) = UI.replaceAll c by_ s +:+ UI.replaceAll c by_ t.
Proof.
  induction s as [|x s IH]; [done|].
  rewrite append_cons. cbn [UI.replaceAll].
  destruct (Ascii.eqb x c); rewrite IH; [|done].
  by rewrite string_append_assoc.
Qed.

Lemma escapeHtml_app s t :
  UI.escapeHtml (s +:+ t) = UI.escapeHtml s +:+ UI.escapeHtml t.
Proof. unfold UI.escapeHtml. by rewrite !replaceAll_app. Qed.

Lemma escapeHtml_char c :
  UI.escapeHtml (String c EmptyString) = escapeChar c.
Proof.
  unfold escapeChar.
  destruct (Ascii.eqb_spec c "&") as [->|Hamp]; [done|].
  destruct (Ascii.eqb_spec c "<") as [->|Hlt]; [done|].
  destruct (Ascii.eqb_spec c ">") as [->|Hgt]; [done|].
  destruct (Ascii.eqb_spec c UI.doubleQuote) as [->|Hquot]; [done|].
  destruct (Ascii.eqb_spec c "'") as [->|Hapos]; [done|].
  apply Ascii.eqb_neq in Hamp, Hlt, Hgt, Hquot, Hapos.
  unfold UI.escapeHtml. cbn. rewrite Hamp. cbn. rewrite Hlt. cbn.
  rewrite Hgt. cbn. rewrite Hquot. cbn. by rewrite Hapos.
Qed.

Lemma escapeHtml_escapeEach (str : string) :
  UI.escapeHtml str = escapeEach str.
Proof.
  induction str as [|c s IH]; [done|].
  change (String c s) with (String c EmptyString +:+ s).
  rewrite escapeHtml_app, escapeHtml_char. cbn [escapeEach]. by rewrite IH.
Qed.

(** X18. The five replacements of [escapeHtml], made one after the other,
    amount to one pass that replaces each character by its entity: the
    ampersand of an entity written by one replacement is not escaped
    again by another, and an ampersand of the input always is. *)
Theorem escapeHtml_is_one_pass (str : string) :
  UI.escapeHtml str = escapeEach str.
Proof. apply escapeHtml_escapeEach. Qed.

Lemma chars_app s t : chars (s +:+ t) = chars s ++ chars t.
Proof. induction s as [|c s IH]; [done|]. rewrite append_cons. cbn. by f_equal. Qed.


Lemma escapeChar_cases c :
  (c = "&"%char ∧ escapeChar c = "&amp;")
  ∨ (c = "<"%char ∧ escapeChar c = "&lt;")
  ∨ (c = ">"%char ∧ escapeChar c = "&gt;")
  ∨ (c = UI.doubleQuote ∧ escapeChar c = "&quot;")
  ∨ (c = "'"%char ∧ escapeChar c = "&#39;")
  ∨ (c ≠ "&"%char ∧ ¬ markupChar c ∧ escapeChar c = String c EmptyString).
Proof.
  unfold escapeChar, markupChar.
  destruct (Ascii.eqb_spec c "&") as [->|Hamp]; [by left|].
  destruct (Ascii.eqb_spec c "<") as [->|Hlt]; [by right; left|].
  destruct (Ascii.eqb_spec c ">") as [->|Hgt]; [by right; right; left|].
  destruct (Ascii.eqb_spec c UI.doubleQuote) as [->|Hquot];
    [by right; right; right; left|].
  destruct (Ascii.eqb_spec c "'") as [->|Hapos];
    [by right; right; right; right; left|].
  right; right; right; right; right. naive_solver.
Qed.

(** X19. The text [escapeHtml] returns contains no [<], no [>], no double
    quote and no apostrophe, and it is the input itself when the input
    contains none of them and no ampersand. *)
Theorem escapeHtml_leaves_no_markup (str : string) :
  Forall (λ c, ¬ markupChar c) (chars (UI.escapeHtml str))
  ∧ (Forall (λ c, c ≠ "&"%char ∧ ¬ markupChar c) (chars str) →
     UI.escapeHtml str = str).
Proof.
  rewrite escapeHtml_escapeEach. split.
  - induction str as [|c s IH]; [constructor|].
    cbn [escapeEach]. rewrite chars_app. apply Forall_app. split; [|done].
    unfold markupChar.
    destruct (escapeChar_cases c)
      as [[_ ->]|[[_ ->]|[[_ ->]|[[_ ->]|[[_ ->]|(_ & Hc & ->)]]]]];
      cbn; repeat (constructor; [by intros [|[|[|]]]|]); try constructor.
    all: done.
  - induction str as [|c s IH]; [done|]. cbn [chars escapeEach].
    intros [[Hamp Hc] Hs]%Forall_cons. rewrite IH by done.
    destruct (escapeChar_cases c)
      as [[? _]|[[-> _]|[[-> _]|[[-> _]|[[-> _]|(_ & _ & ->)]]]]];
      first [done | destruct Hc; unfold markupChar; naive_solver].
Qed.

Lemma escapeChar_prefix_free c1 c2 r1 r2 :
  escapeChar c1 +:+ r1 = escapeChar c2 +:+ r2 → c1 = c2 ∧ r1 = r2.
Proof.
  unfold markupChar.
  destruct (escapeChar_cases c1)
    as [[-> ->]|[[-> ->]|[[-> ->]|[[-> ->]|[[-> ->]|(H1 & M1 & ->)]]]]];
  destruct (escapeChar_cases c2)
    as [[-> ->]|[[-> ->]|[[-> ->]|[[-> ->]|[[-> ->]|(H2 & M2 & ->)]]]]];
  rewrite ?append_cons; intros Heq; simplify_eq; try done;
  unfold markupChar in *; naive_solver.
Qed.

(** X20. [escapeHtml] loses nothing: two different texts are escaped to
    two different texts. *)
Theorem escapeHtml_injective (s1 s2 : string) :
  UI.escapeHtml s1 = UI.escapeHtml s2 → s1 = s2.
Proof.
  rewrite !escapeHtml_escapeEach. revert s2.
  assert (Hhead : ∀ c, ∃ x rest, escapeChar c = String x rest).
  { intros c.
    destruct (escapeChar_cases c)
      as [[_ ->]|[[_ ->]|[[_ ->]|[[_ ->]|[[_ ->]|(_ & _ & ->)]]]]]; eauto. }
  induction s1 as [|c1 s1 IH]; intros [|c2 s2]; cbn [escapeEach].
  - done.
  - destruct (Hhead c2) as (x & rest & ->). by rewrite append_cons.
  - destruct (Hhead c1) as (x & rest & ->). by rewrite append_cons.
  - intros [-> Hrest]%escapeChar_prefix_free. f_equal. by apply IH.
Qed.

(** ** What the panels show after a command *)

Section PanelFacts.
Context `{Builtins} `{Markup}.

Lemma replay_app calls1 calls2 p :
  replay (calls1 ++ calls2) p = replay calls2 (replay calls1 p).
Proof. apply foldl_app. Qed.

Lemma trace_rejected w err :
  isLoading (State w) = true →
  trace (fire w (FetchSettled (Rejected err)))
  = trace w
    ++ [ showError (default "An unknown error occurred." (message err));
         showToast "Failed to load data" "danger";
         console "error";
         dom "refreshBtn" "classList.spinning" "false" ].
Proof. intros Hloading. execute. by rewrite <-!app_assoc. Qed.

Lemma trace_watchlist_shortcut w :
  watchlistOnly (State w) = false → favorites (State w) = [] →
  trace (fire w WatchlistToggleClick)
  = trace w
    ++ [ dom "watchlistToggle" "aria-pressed" "true";
         dom "watchlistToggle" "classList.active-watchlist" "true";
         showWatchlistEmpty;
         updateStats (length (allCoins (State w))) 0 0 ].
Proof.
  intros Hoff Hnone.
  execute; rewrite ?Hoff, ?Hnone in *; cbn in *; try done.
  by rewrite <-!app_assoc.
Qed.

Lemma trace_last_favorite w coinId l :
  watchlistOnly (State w) = true → favorites (State w) = [coinId] →
  deriveVisibleCoins (set_favorites [] (State w)) = Normal l →
  ∃ calls,
    trace (toggleFavorite coinId w).2
    = (trace w ++ calls)
      ++ [ renderCoins l [];
           updateStats (length (allCoins (State w))) (length l) 0;
           showWatchlistEmpty ].
Proof.
  intros Hon Hfavs Hl.
  assert (Hrm : List.filter (λ id, negb (String.eqb id coinId)) [coinId]
                = []).
  { cbn [List.filter]. by rewrite String.eqb_refl. }
  assert (Hinc : arrayIncludes [coinId] coinId = true).
  { apply arrayIncludes_elem_of. set_solver. }
  execute; rewrite ?Hfavs, ?Hrm, ?Hon, ?Hinc in *; simplify_eq;
    simpl_world; try done.
  all: match goal with
       | Hd : deriveVisibleCoins _ = _ |- _ => rewrite Hl in Hd
       end; simplify_eq.
  all: rewrite <-!app_assoc; cbn [app].
  all: first [ by (eexists [_; _]; rewrite <-app_assoc)
             | by (eexists [_; _; _]; rewrite <-app_assoc) ].
Qed.

Lemma renderView_normal w visible :
  deriveVisibleCoins (State w) = Normal visible →
  renderView w
  = (Normal (),
     {| State := State w; localStorage := localStorage w;
        trace := (trace w ++ [derive])
          ++ [ renderCoins visible (favorites (State w));
               updateStats (length (allCoins (State w))) (length visible)
                           (length (favorites (State w))) ] |}).
Proof.
  intros Hd. unfold renderView. unfold_monad. simpl_world. rewrite Hd.
  by rewrite <-!app_assoc.
Qed.

(** X22. After a fetch has failed the error banner is shown with the
    message of the failure, the grid is empty and the empty-state panel is
    hidden, whatever the panels showed before. *)
Theorem panels_after_failed_load (w : World) (err : JsError) (p : UI.Panels) :
  isLoading (State w) = true →
  let P := replay (trace (fire w (FetchSettled (Rejected err)))) p in
  UI.errorBanner_hidden P = false
  ∧ UI.errorMsg_textContent P
    = default "An unknown error occurred." (message err)
  ∧ UI.coinGrid_innerHTML P = EmptyString
  ∧ UI.emptyState_hidden P = true.
Proof.
  intros Hloading P. unfold P. rewrite trace_rejected by done.
  by rewrite replay_app.
Qed.

(** X23. After [toggleFavorite] has removed the only favorite while the
    watchlist filter is on, and the view has been derived, the panels show
    the empty-watchlist text, not the no-match text that rendering the
    empty list had set; the grid is empty and the error banner hidden. *)
Theorem panels_after_last_unfavorite
    (w : World) (coinId : string) (l : list CoinData) (p : UI.Panels) :
  watchlistOnly (State w) = true → favorites (State w) = [coinId] →
  deriveVisibleCoins (set_favorites [] (State w)) = Normal l →
  let P := replay (trace (toggleFavorite coinId w).2) p in
  UI.emptyState_hidden P = false
  ∧ UI.emptyMsg_textContent P = UI.watchlistEmptyMessage
  ∧ UI.coinGrid_innerHTML P = EmptyString
  ∧ UI.errorBanner_hidden P = true.
Proof.
  intros Hon Hfavs Hl P. unfold P.
  destruct (trace_last_favorite w coinId l Hon Hfavs Hl) as [calls ->].
  rewrite replay_app. cbn. unfold UI.renderCoins.
  by destruct (Nat.eqb (length l) 0).
Qed.

(** X24. Turning the watchlist filter on while there is no favorite shows
    the empty-watchlist panel over an empty grid and leaves the error
    banner as it was: a banner left by a failed load stays on screen next
    to the panel. *)
Theorem watchlist_shortcut_keeps_error_banner (w : World) (p : UI.Panels) :
  watchlistOnly (State w) = false → favorites (State w) = [] →
  let P0 := replay (trace w) p in
  let P := replay (trace (fire w WatchlistToggleClick)) p in
  UI.emptyState_hidden P = false
  ∧ UI.emptyMsg_textContent P = UI.watchlistEmptyMessage
  ∧ UI.coinGrid_innerHTML P = EmptyString
  ∧ UI.errorBanner_hidden P = UI.errorBanner_hidden P0
  ∧ UI.errorMsg_textContent P = UI.errorMsg_textContent P0.
Proof.
  intros Hoff Hnone P0 P. unfold P, P0.
  rewrite trace_watchlist_shortcut by done. by rewrite replay_app.
Qed.

(** X25. After [renderView] has returned, the error banner is hidden, and
    the empty-state panel is shown exactly when no coin is visible: then
    the grid is empty and the panel carries the no-match text, otherwise
    the grid holds one card per visible coin, in order. *)
Theorem panels_after_render
    (w : World) (visible : list CoinData) (p : UI.Panels) :
  deriveVisibleCoins (State w) = Normal visible →
  let P := replay (trace (renderView w).2) p in
  UI.errorBanner_hidden P = true
  ∧ (UI.emptyState_hidden P = false ↔ visible = [])
  ∧ (visible = [] →
     UI.coinGrid_innerHTML P = EmptyString
     ∧ UI.emptyMsg_textContent P
       = "No coins match your search. Try a different term.")
  ∧ (visible ≠ [] →
     UI.coinGrid_innerHTML P
     = String.concat EmptyString
         (map (λ coin, buildCoinCard coin (favorites (State w))) visible)).
Proof.
  intros Hd P. unfold P. rewrite (renderView_normal _ _ Hd).
  cbn [trace snd]. rewrite replay_app. cbn. unfold UI.renderCoins.
  destruct visible as [|c cs]; cbn; naive_solver.
Qed.
End PanelFacts.

(** ** The further properties at concrete worlds *)

Lemma saveToStorage_witness :
  let w := Sample.world Sample.state0 in
  let w' := (saveToStorage (H := Sample.builtins) "k" (JStr "v") w).2 in
  items (localStorage w')
  = <["k" := JSON_stringify (Builtins := Sample.builtins) (JStr "v")]>
      (items (localStorage w))
  ∧ trace w' = [].
Proof.
  intros w w'.
  destruct (saveToStorage_swallows_failures (H := Sample.builtins)
              "k" (JStr "v") w) as (_ & _ & Hok & _).
  destruct Hok as (Hitems & _ & Htrace); [by split|]. by split.
Defined.

Lemma save_then_load_witness :
  loadFromStorage (H := Sample.builtins)
    (localStorage
       (saveToStorage (H := Sample.builtins) STORAGE_KEYS.FAVORITES
          (JArr [JStr "a"]) (Sample.world Sample.state0)).2)
    STORAGE_KEYS.FAVORITES (JArr [])
  = Normal (JArr [JStr "a"]).
Proof.
  apply (save_then_load (H := Sample.builtins)).
  - by split.
  - vm_compute. reflexivity.
Defined.

Lemma written_preferences_witness :
  h_theme (hydrate (H := Sample.builtins)
             (localStorage (fire (H := Sample.builtins)
                                 (Sample.world Sample.state0)
                                 ThemeToggleClick)))
  = Normal (JStr "light").
Proof.
  destruct (written_preferences_are_read_back (H := Sample.builtins)
              (Sample.world Sample.state0)) as (_ & Htheme & _);
    [by split|].
  apply Htheme. vm_compute. reflexivity.
Defined.

Lemma theme_toggle_witness :
  State (fire (H := Sample.builtins)
           (fire (H := Sample.builtins) (Sample.world Sample.state0)
                 ThemeToggleClick) ThemeToggleClick)
  = Sample.state0.
Proof.
  apply (theme_toggle_twice (H := Sample.builtins)
           (Sample.world Sample.state0)).
  unfold Theme. cbn. set_solver.
Defined.

Lemma sort_order_toggle_witness :
  deriveVisibleCoins (H := Sample.builtins)
    (State (fire (H := Sample.builtins)
              (fire (H := Sample.builtins) (Sample.world Sample.state0)
                    SortOrderClick) SortOrderClick))
  = deriveVisibleCoins (H := Sample.builtins) Sample.state0.
Proof.
  apply (sort_order_toggle_twice (H := Sample.builtins)
           (Sample.world Sample.state0)).
  unfold SortOrder. cbn. set_solver.
Defined.

Lemma events_write_witness :
  ∃ coinId, FavoriteClick "a" = FavoriteClick coinId.
Proof.
  apply (events_write_only_their_fields (H := Sample.builtins)
           (Sample.world Sample.state0) (FavoriteClick "a")).
  vm_compute. discriminate.
Defined.

Lemma derive_pass_through_witness :
  [Sample.alpha; Sample.gamma; Sample.beta] ≡ₚ allCoins Sample.state0.
Proof.
  apply (derive_pass_through_and_empty_watchlist (H := Sample.builtins)
           Sample.state0); vm_compute; reflexivity.
Defined.

Lemma favorites_nodup_witness :
  NoDup (favorites (State (fire (H := Sample.builtins) Sample.lastFavorite
                                (FavoriteClick "b")))).
Proof.
  apply (favorites_membership_and_nodup (H := Sample.builtins)).
  cbn. apply NoDup_singleton.
Defined.

Lemma loadData_success_witness :
  allCoins (State (fire (H := Sample.builtins) Sample.loading
                        (FetchSettled (Resolved [Sample.beta]))))
  = [Sample.beta].
Proof.
  destruct (loadData_success (H := Sample.builtins) Sample.loading
              [Sample.beta]) as [-> _]; reflexivity.
Defined.

Lemma one_fetch_witness :
  ∃ w, start (H := Sample.builtins) (Sample.store []) = Some w
       ∧ fetches (trace (run (H := Sample.builtins)
                             [RefreshClick; RefreshTimer] w))
         ≤ 1 + settles [RefreshClick; RefreshTimer].
Proof.
  destruct (one_fetch_in_flight (H := Sample.builtins)
              [RefreshClick; RefreshTimer]) as [_ Hstart].
  eexists. split; [reflexivity|].
  apply (Hstart (Sample.store [])). reflexivity.
Defined.

Lemma normalizeCoin_fields_witness :
  ∃ c, API.normalizeCoin (H := SampleUi.api) SampleUi.rawSparse = Normal c
       ∧ Forall (λ v, v ≠ JNull) (API.fields c)
       ∧ API.id c = JStr "x" ∧ API.name c = JStr "Unknown".
Proof.
  eexists. split; [reflexivity|].
  destruct (normalizeCoin_fields_never_null (H := SampleUi.api)
              SampleUi.rawSparse _ eq_refl) as (Hnull & _ & _).
  split; [exact Hnull|]. by split.
Defined.

Lemma normalizeCoin_of_non_object_witness :
  API.normalizeCoin (H := SampleUi.api) (JNum 5)
  = Normal (fallbackCoin (H := SampleUi.api)).
Proof. by apply normalizeCoin_of_non_object. Defined.

Lemma settled_load_witness :
  ∃ coins,
    settlement (H := SampleUi.api)
      (API.Response 200 (Normal (JArr [SampleUi.rawBitcoin])))
    = Some (Resolved coins)
    ∧ allCoins (State (fire (H := Sample.builtins) Sample.loading
                            (FetchSettled (Resolved coins)))) = coins
    ∧ coins ≠ [].
Proof.
  eexists. split; [vm_compute; reflexivity|].
  apply (settled_load (H := Sample.builtins) (H0 := SampleUi.api)
           (API.Response 200 (Normal (JArr [SampleUi.rawBitcoin])))
           (Resolved _) Sample.loading); vm_compute; reflexivity.
Defined.

Lemma escapeHtml_plain_witness : UI.escapeHtml "Bitcoin" = "Bitcoin".
Proof.
  apply escapeHtml_leaves_no_markup. cbn.
  repeat (constructor;
          [split; [discriminate|by intros [|[|[|]]]]|]).
  constructor.
Defined.

Lemma escapeHtml_injective_witness : "a<b" = "a<b".
Proof. apply escapeHtml_injective. reflexivity. Defined.

Lemma panels_after_failed_load_witness :
  UI.errorMsg_textContent
    (replay (H := SampleUi.markup)
       (trace (fire (H := Sample.builtins) Sample.loading
                 (FetchSettled (Rejected (Error (Some "Rate limit reached."))))))
       SampleUi.blank)
  = "Rate limit reached.".
Proof.
  by apply (panels_after_failed_load (H := Sample.builtins)
              (H0 := SampleUi.markup) Sample.loading
              (Error (Some "Rate limit reached.")) SampleUi.blank).
Defined.

Lemma panels_after_last_unfavorite_witness :
  UI.emptyMsg_textContent
    (replay (H := SampleUi.markup)
       (trace (toggleFavorite (H := Sample.builtins) "a"
                 Sample.lastFavorite).2)
       SampleUi.blank)
  = UI.watchlistEmptyMessage.
Proof.
  apply (panels_after_last_unfavorite (H := Sample.builtins)
           (H0 := SampleUi.markup) Sample.lastFavorite "a" []);
    vm_compute; reflexivity.
Defined.

Lemma watchlist_shortcut_witness :
  UI.emptyState_hidden
    (replay (H := SampleUi.markup)
       (trace (fire (H := Sample.builtins) (Sample.world Sample.state0)
                 WatchlistToggleClick))
       SampleUi.blank)
  = false.
Proof.
  by apply (watchlist_shortcut_keeps_error_banner (H := Sample.builtins)
              (H0 := SampleUi.markup) (Sample.world Sample.state0)
              SampleUi.blank).
Defined.

Lemma panels_after_render_witness :
  UI.errorBanner_hidden
    (replay (H := SampleUi.markup)
       (trace (renderView (H := Sample.builtins)
                 (Sample.world Sample.state0)).2)
       SampleUi.blank)
  = true.
Proof.
  apply (panels_after_render (H := Sample.builtins) (H0 := SampleUi.markup)
           (Sample.world Sample.state0)
           [Sample.alpha; Sample.gamma; Sample.beta] SampleUi.blank).
  vm_compute. reflexivity.
Defined.
